(** * mychardev: a single-slot character device driver

    Shallow embedding of the two driver variants of the repository,
    [src/mychardev.c] (module [MyCharDev]) and the second driver file
    (module [Device]), together with the properties of the buffer store,
    the availability flag and the per-session read offset.

    Conventions of the embedding.
    - C integers are [Z]; the conversions the C code performs implicitly
      ([loff_t] to [size_t] in a comparison, [size_t] to [ssize_t] on return)
      are written out with [to_size_t] and [to_ssize_t].
    - The static globals of a driver are one record; a handler takes the
      record and returns the new one (explicit state passing).
    - [loff_t* dev_offset] is a cell owned by the calling session: a handler
      takes its value and returns the new value.
    - User memory is outside the driver.  A [char __user*] source is the list
      of bytes readable at the pointer, a [char __user*] destination is the
      number of bytes writable at the pointer; a transfer faults when the
      request is longer than that.
    - [mutex_lock_interruptible] gets a boolean: a signal arrived while the
      caller was waiting for the lock.
    - Calls run one after the other, so the mutex is free at every call and
      is not a field of the state.  The wait queue ([poll_wait],
      [wake_up_interruptible]) and the log messages are left out: no handler
      reads them back. *)

From Stdlib Require Import ZArith List Lia Bool.
From Stdlib Require Import Strings.Byte.
Import ListNotations.

Local Open Scope Z_scope.

(** ** Kernel primitives the driver calls *)

Module Kernel.

(** [size_t] is an unsigned 64-bit integer, [ssize_t] and [loff_t] are
    signed 64-bit integers. *)
Definition to_size_t (x : Z) : Z := x mod 2 ^ 64.

Definition to_ssize_t (x : Z) : Z :=
  let u := x mod 2 ^ 64 in
  if u <? 2 ^ 63 then u else u - 2 ^ 64.

Definition to_loff_t (x : Z) : Z := to_ssize_t x.

Definition is_size_t (x : Z) : Prop := 0 <= x < 2 ^ 64.

(** errno values (include/uapi/asm-generic/errno-base.h, linux/errno.h). *)
Definition EINTR : Z := 4.
Definition EFAULT : Z := 14.
Definition EINVAL : Z := 22.
Definition ERESTARTSYS : Z := 512.

(** poll bits (include/uapi/asm-generic/poll.h). *)
Definition POLLIN : Z := 0x0001.
Definition POLLRDNORM : Z := 0x0040.

(** ioctl command encoding (include/uapi/asm-generic/ioctl.h). *)
Definition _IOC_NRSHIFT : Z := 0.
Definition _IOC_TYPESHIFT : Z := 8.
Definition _IOC_SIZESHIFT : Z := 16.
Definition _IOC_DIRSHIFT : Z := 30.
Definition _IOC_NONE : Z := 0.

Definition _IOC (dir type nr size : Z) : Z :=
  Z.lor (Z.lor (Z.lor (Z.shiftl dir _IOC_DIRSHIFT)
                      (Z.shiftl type _IOC_TYPESHIFT))
               (Z.shiftl nr _IOC_NRSHIFT))
        (Z.shiftl size _IOC_SIZESHIFT).

Definition _IO (type nr : Z) : Z := _IOC _IOC_NONE type nr 0.

(** [mutex_lock_interruptible]: 0 when the lock was taken, [-EINTR] when a
    signal arrived first. *)
Definition mutex_lock_interruptible (signalled : bool) : Z :=
  if signalled then - EINTR else 0.

(** [memset(buf, c, n)]: the first [n] bytes of [buf] become [c]. *)
Definition memset (buf : list byte) (c : byte) (n : Z) : list byte :=
  repeat c (Z.to_nat n) ++ skipn (Z.to_nat n) buf.

(** [copy_to_user(to, from, n)]: [from] is the kernel memory at the source
    pointer, [room] the number of bytes writable at [to].  Returns the bytes
    that reached user memory and the number of bytes that could not be
    copied (0 on success). *)
Definition copy_to_user (room : nat) (from : list byte) (n : Z)
  : list byte * Z :=
  let done := Z.min n (Z.of_nat room) in
  (firstn (Z.to_nat done) from, n - done).

(** [copy_from_user(to, from, n)]: [to] is the kernel memory at the
    destination pointer, [from] the bytes readable at the user pointer.
    Returns the new kernel memory and the number of bytes that could not be
    copied (0 on success).  As in the kernel, the bytes that could not be
    copied are padded with zero in the destination. *)
Definition copy_from_user (to : list byte) (from : list byte) (n : Z)
  : list byte * Z :=
  let done := Z.min n (Z.of_nat (length from)) in
  (firstn (Z.to_nat done) from ++ repeat x00 (Z.to_nat (n - done))
     ++ skipn (Z.to_nat n) to,
   n - done).

(** What a read handler hands back: the return value, the bytes that
    reached the user buffer, the offset cell and the driver globals. *)
Record read_result (G : Type) : Type := mk_read {
  r_ret : Z;
  r_user : list byte;
  r_off : Z;
  r_st : G
}.

(** What a write handler hands back. *)
Record write_result (G : Type) : Type := mk_write {
  w_ret : Z;
  w_off : Z;
  w_st : G
}.

(** [struct file_operations]: the handlers a driver registers.  Every
    handler runs on the driver globals [G]. *)
Record file_operations (G : Type) : Type := mk_file_operations {
  open : G -> Z * G;
  release : G -> Z * G;
  read : G -> nat -> Z -> Z -> bool -> read_result G;
  write : G -> list byte -> Z -> Z -> bool -> write_result G;
  poll : G -> Z * G;
  unlocked_ioctl : G -> Z -> Z -> Z * G
}.

(** [int] is a signed 32-bit integer. *)
Definition to_int (x : Z) : Z :=
  let u := x mod 2 ^ 32 in
  if u <? 2 ^ 31 then u else u - 2 ^ 32.

(** Error pointers (include/linux/err.h).  A pointer is its address, an
    unsigned 64-bit integer; the last [MAX_ERRNO] addresses encode errors. *)
Definition MAX_ERRNO : Z := 4095.

Definition IS_ERR (ptr : Z) : bool := ptr >=? to_size_t (- MAX_ERRNO).

Definition PTR_ERR (ptr : Z) : Z := to_ssize_t ptr.

(** The calls a driver makes into the kernel when it is loaded and
    unloaded, with the arguments that identify the object and, for a call
    that can fail, what it returned. *)
Inductive kcall : Type :=
| k_alloc_chrdev_region (baseminor count : Z) (ret : Z)
| k_cdev_init
| k_cdev_add (dev count : Z) (ret : Z)
| k_class_create (ret : Z)
| k_device_create (cls dev : Z) (ret : Z)
| k_unregister_chrdev_region (dev count : Z)
| k_cdev_del
| k_class_destroy (cls : Z)
| k_device_destroy (cls dev : Z).

(** What the kernel answers to the four calls of a load that can fail:
    the return value of [alloc_chrdev_region] and the device number it
    stores on success, the return value of [cdev_add], the pointers
    returned by [class_create] and [device_create]. *)
Record kernel_env : Type := mk_kernel_env {
  alloc_chrdev_region_ret : Z;
  allocated_dev : Z;
  cdev_add_ret : Z;
  class_create_ret : Z;
  device_create_ret : Z
}.

Arguments mk_read {G} _ _ _ _.
Arguments r_ret {G} _.
Arguments r_user {G} _.
Arguments r_off {G} _.
Arguments r_st {G} _.
Arguments mk_write {G} _ _ _.
Arguments w_ret {G} _.
Arguments w_off {G} _.
Arguments w_st {G} _.
Arguments open {G} _ _.
Arguments release {G} _ _.
Arguments read {G} _ _ _ _ _ _.
Arguments write {G} _ _ _ _ _ _.
Arguments poll {G} _ _.
Arguments unlocked_ioctl {G} _ _ _ _.

End Kernel.

Import Kernel.

(** ** src/mychardev.c *)

Module MyCharDev.

Definition DEV_BUF_LEN : Z := 256.
Definition IOCTL_MAGIC : Z := 107. (* 'k' *)
Definition SUCCESSFUL : Z := 0.
Definition IOCTL_RESET_BUF : Z := _IO IOCTL_MAGIC 0.

(** The static variables [data_available], [dev_buf], [dev_buf_size]. *)
Record globals : Type := mk_globals {
  data_available : Z;
  dev_buf : list byte;
  dev_buf_size : Z
}.

(** Static storage is zero-initialised; [dev_buf_size = 0]. *)
Definition initial : globals :=
  {| data_available := 0;
     dev_buf := repeat x00 (Z.to_nat DEV_BUF_LEN);
     dev_buf_size := 0 |}.

Definition set_data_available (st : globals) (v : Z) : globals :=
  {| data_available := v;
     dev_buf := dev_buf st;
     dev_buf_size := dev_buf_size st |}.

Definition dev_open (st : globals) : Z * globals := (0, st).

Definition dev_release (st : globals) : Z * globals := (0, st).

Definition dev_read (st : globals) (user_buf : nat) (amt_to_copy : Z)
    (dev_offset : Z) (signalled : bool) : read_result globals :=
  let amt_copied := 0 in
  if to_size_t dev_offset >=? dev_buf_size st then
    mk_read amt_copied [] dev_offset st
  else if negb (mutex_lock_interruptible signalled =? SUCCESSFUL) then
    mk_read (- ERESTARTSYS) [] dev_offset st
  else
    let amt_data_remaining :=
      to_size_t (dev_buf_size st - to_size_t dev_offset) in
    let amt_to_copy :=
      if amt_to_copy >? amt_data_remaining then amt_data_remaining
      else amt_to_copy in
    let (delivered, not_copied) :=
      copy_to_user user_buf (dev_buf st) amt_to_copy in
    if negb (not_copied =? SUCCESSFUL) then
      mk_read (- EFAULT) delivered dev_offset st
    else
      let dev_offset := to_loff_t (to_size_t dev_offset + amt_to_copy) in
      let amt_copied := amt_to_copy in
      mk_read (to_ssize_t amt_copied) delivered dev_offset
              (set_data_available st 0).

Definition dev_write (st : globals) (user_buf : list byte)
    (amt_to_write : Z) (dev_offset : Z) (signalled : bool)
  : write_result globals :=
  if amt_to_write >? dev_buf_size st then
    mk_write (- EINVAL) dev_offset st
  else if negb (mutex_lock_interruptible signalled =? SUCCESSFUL) then
    mk_write (- ERESTARTSYS) dev_offset st
  else
    let (buf, not_copied) :=
      copy_from_user (dev_buf st) user_buf amt_to_write in
    if negb (not_copied =? SUCCESSFUL) then
      mk_write (- EFAULT) dev_offset
               {| data_available := data_available st;
                  dev_buf := buf;
                  dev_buf_size := dev_buf_size st |}
    else
      mk_write (to_ssize_t amt_to_write) dev_offset
               {| data_available := 1;
                  dev_buf := buf;
                  dev_buf_size := amt_to_write |}.

Definition dev_poll (st : globals) : Z * globals :=
  let mask := 0 in
  let mask :=
    if negb (data_available st =? 0)
    then Z.lor (Z.lor mask POLLIN) POLLRDNORM
    else mask in
  (mask, st).

Definition dev_ioctl (st : globals) (cmd : Z) (args : Z) : Z * globals :=
  if cmd =? IOCTL_RESET_BUF then
    (SUCCESSFUL,
     {| data_available := 0;
        dev_buf := memset (dev_buf st) x00 DEV_BUF_LEN;
        dev_buf_size := 0 |})
  else (- EINVAL, st).

(** The static variables [dev_num], [myclass], [mydevice]. *)
Record module_vars : Type := mk_module_vars {
  dev_num : Z;
  myclass : Z;
  mydevice : Z
}.

Definition mychardev_init (k : kernel_env) (m : module_vars)
  : Z * module_vars * list kcall :=
  let ret := alloc_chrdev_region_ret k in
  let dev_num := if ret =? 0 then allocated_dev k else dev_num m in
  let m := {| dev_num := dev_num; myclass := myclass m;
              mydevice := mydevice m |} in
  let log := [k_alloc_chrdev_region 0 1 ret] in
  if ret <? SUCCESSFUL then (ret, m, log)
  else
    let log := log ++ [k_cdev_init] in
    let ret := cdev_add_ret k in
    let log := log ++ [k_cdev_add dev_num 1 ret] in
    if ret <? SUCCESSFUL then
      (ret, m, log ++ [k_unregister_chrdev_region dev_num 1])
    else
      let myclass := class_create_ret k in
      let log := log ++ [k_class_create myclass] in
      let log :=
        if IS_ERR myclass
        then log ++ [k_cdev_del; k_unregister_chrdev_region dev_num 1]
        else log in
      let mydevice := device_create_ret k in
      let log := log ++ [k_device_create myclass dev_num mydevice] in
      let log :=
        if IS_ERR mydevice
        then log ++ [k_class_destroy myclass; k_cdev_del;
                     k_unregister_chrdev_region dev_num 1]
        else log in
      (0, {| dev_num := dev_num; myclass := myclass;
             mydevice := mydevice |}, log).

Definition mychardev_exit (m : module_vars) : list kcall :=
  [k_device_destroy (myclass m) (dev_num m);
   k_class_destroy (myclass m);
   k_cdev_del;
   k_unregister_chrdev_region (dev_num m) 1].

Definition file_ops : file_operations globals :=
  {| open := dev_open;
     release := dev_release;
     read := dev_read;
     write := dev_write;
     poll := dev_poll;
     unlocked_ioctl := dev_ioctl |}.

End MyCharDev.

(** ** The second driver file *)

Module Device.

Definition IOCTL_MAGIC : Z := 107. (* 'k' *)
Definition IOCTL_RESET_BUFFER : Z := _IO IOCTL_MAGIC 0.
Definition BUF_LEN : Z := 256.
Definition MUTEX_SUCCESS : Z := 0.

(** The static variables [device_buffer], [device_buffer_size],
    [data_available]. *)
Record globals : Type := mk_globals {
  device_buffer : list byte;
  device_buffer_size : Z;
  data_available : Z
}.

Definition initial : globals :=
  {| device_buffer := repeat x00 (Z.to_nat BUF_LEN);
     device_buffer_size := 0;
     data_available := 0 |}.

Definition set_data_available (st : globals) (v : Z) : globals :=
  {| device_buffer := device_buffer st;
     device_buffer_size := device_buffer_size st;
     data_available := v |}.

Definition device_open (st : globals) : Z * globals := (0, st).

Definition device_release (st : globals) : Z * globals := (0, st).

Definition device_read (st : globals) (user_buffer : nat) (amount_to_read : Z)
    (device_buffer_offset : Z) (signalled : bool) : read_result globals :=
  if to_size_t device_buffer_offset >=? device_buffer_size st then
    mk_read 0 [] device_buffer_offset st
  else if negb (mutex_lock_interruptible signalled =? MUTEX_SUCCESS) then
    mk_read (- ERESTARTSYS) [] device_buffer_offset st
  else
    let remaining_dev_buffer_space :=
      to_size_t (device_buffer_size st - to_size_t device_buffer_offset) in
    let amount_to_read :=
      if amount_to_read >? remaining_dev_buffer_space
      then remaining_dev_buffer_space
      else amount_to_read in
    let (delivered, not_copied) :=
      copy_to_user user_buffer
        (skipn (Z.to_nat device_buffer_offset) (device_buffer st))
        amount_to_read in
    if negb (not_copied =? 0) then
      mk_read (- EFAULT) delivered device_buffer_offset st
    else
      let device_buffer_offset :=
        to_loff_t (to_size_t device_buffer_offset + amount_to_read) in
      let ret := to_ssize_t amount_to_read in
      mk_read ret delivered device_buffer_offset (set_data_available st 0).

Definition device_write (st : globals) (user_buffer : list byte)
    (amount_to_write : Z) (device_buffer_offset : Z) (signalled : bool)
  : write_result globals :=
  if amount_to_write >? BUF_LEN then
    mk_write (- EINVAL) device_buffer_offset st
  else if negb (mutex_lock_interruptible signalled =? 0) then
    mk_write (- ERESTARTSYS) device_buffer_offset st
  else
    let (buf, not_copied) :=
      copy_from_user (device_buffer st) user_buffer amount_to_write in
    if negb (not_copied =? 0) then
      mk_write (- EFAULT) device_buffer_offset
               {| device_buffer := buf;
                  device_buffer_size := device_buffer_size st;
                  data_available := data_available st |}
    else
      mk_write (to_ssize_t amount_to_write) device_buffer_offset
               {| device_buffer := buf;
                  device_buffer_size := amount_to_write;
                  data_available := 1 |}.

Definition device_ioctl (st : globals) (cmd : Z) (arg : Z) : Z * globals :=
  if cmd =? IOCTL_RESET_BUFFER then
    (0,
     {| device_buffer := memset (device_buffer st) x00 BUF_LEN;
        device_buffer_size := 0;
        data_available := 0 |})
  else (- EINVAL, st).

Definition device_poll (st : globals) : Z * globals :=
  let mask := 0 in
  let mask :=
    if negb (data_available st =? 0)
    then Z.lor (Z.lor mask POLLIN) POLLRDNORM
    else mask in
  (mask, st).

(** The static variables [device_num], [my_class], [my_device]. *)
Record module_vars : Type := mk_module_vars {
  device_num : Z;
  my_class : Z;
  my_device : Z
}.

Definition myfirstchar_init (k : kernel_env) (m : module_vars)
  : Z * module_vars * list kcall :=
  let ret := alloc_chrdev_region_ret k in
  let device_num := if ret =? 0 then allocated_dev k else device_num m in
  let m := {| device_num := device_num; my_class := my_class m;
              my_device := my_device m |} in
  let log := [k_alloc_chrdev_region 0 1 ret] in
  if ret <? 0 then (ret, m, log)
  else
    let log := log ++ [k_cdev_init] in
    let ret := cdev_add_ret k in
    let log := log ++ [k_cdev_add device_num 1 ret] in
    if ret <? 0 then
      (ret, m, log ++ [k_unregister_chrdev_region device_num 1])
    else
      let my_class := class_create_ret k in
      let m := {| device_num := device_num; my_class := my_class;
                  my_device := my_device m |} in
      let log := log ++ [k_class_create my_class] in
      if IS_ERR my_class then
        (to_int (PTR_ERR my_class), m,
         log ++ [k_cdev_del; k_unregister_chrdev_region device_num 1])
      else
        let my_device := device_create_ret k in
        let m := {| device_num := device_num; my_class := my_class;
                    my_device := my_device |} in
        let log := log ++ [k_device_create my_class device_num my_device] in
        if IS_ERR my_device then
          (to_int (PTR_ERR my_device), m,
           log ++ [k_class_destroy my_class; k_cdev_del;
                   k_unregister_chrdev_region device_num 1])
        else (0, m, log).

Definition myfirstchar_exit (m : module_vars) : list kcall :=
  [k_device_destroy (my_class m) (device_num m);
   k_class_destroy (my_class m);
   k_cdev_del;
   k_unregister_chrdev_region (device_num m) 1].

Definition file_ops : file_operations globals :=
  {| open := device_open;
     release := device_release;
     read := device_read;
     write := device_write;
     unlocked_ioctl := device_ioctl;
     poll := device_poll |}.

End Device.

(** ** The two drivers behind one interface *)

Inductive variant : Type :=
| mychardev_c    (* src/mychardev.c *)
| second_driver. (* the second driver file *)

Definition state (v : variant) : Type :=
  match v with
  | mychardev_c => MyCharDev.globals
  | second_driver => Device.globals
  end.

Definition fops (v : variant) : file_operations (state v) :=
  match v with
  | mychardev_c => MyCharDev.file_ops
  | second_driver => Device.file_ops
  end.

Definition init (v : variant) : state v :=
  match v with
  | mychardev_c => MyCharDev.initial
  | second_driver => Device.initial
  end.

(** The three fields of the buffer store, read off the globals. *)
Definition contents (v : variant) : state v -> list byte :=
  match v with
  | mychardev_c => MyCharDev.dev_buf
  | second_driver => Device.device_buffer
  end.

Definition buf_size (v : variant) : state v -> Z :=
  match v with
  | mychardev_c => MyCharDev.dev_buf_size
  | second_driver => Device.device_buffer_size
  end.

Definition data_available (v : variant) : state v -> Z :=
  match v with
  | mychardev_c => MyCharDev.data_available
  | second_driver => Device.data_available
  end.

Definition capacity : Z := 256.

(** The reset command of the control channel. *)
Definition RESET (v : variant) : Z :=
  match v with
  | mychardev_c => MyCharDev.IOCTL_RESET_BUF
  | second_driver => Device.IOCTL_RESET_BUFFER
  end.

(** The mask a poll returns reports READABLE. *)
Definition READABLE : Z := Z.lor POLLIN POLLRDNORM.

Definition readable (mask : Z) : bool := Z.land mask READABLE =? READABLE.

(** [write(b)] of the specification: the caller passes a buffer that holds
    [b] and asks for [length b] bytes; no signal arrives. *)
Definition write_bytes (v : variant) (st : state v) (b : list byte)
  : write_result (state v) :=
  write (fops v) st b (Z.of_nat (length b)) 0 false.

(** *** Sequences of calls *)

Inductive call : Type :=
| c_open
| c_release
| c_read (user_room : nat) (amt : Z) (off : Z) (signalled : bool)
| c_write (user_src : list byte) (amt : Z) (off : Z) (signalled : bool)
| c_poll
| c_ioctl (cmd : Z) (arg : Z).

(** The arguments are values of their C types; the kernel hands a read or a
    write a non-negative file position. *)
Definition well_typed (c : call) : Prop :=
  match c with
  | c_read _ amt off _ => is_size_t amt /\ 0 <= off < 2 ^ 63
  | c_write _ amt off _ => is_size_t amt /\ 0 <= off < 2 ^ 63
  | c_ioctl cmd _ => 0 <= cmd < 2 ^ 32
  | _ => True
  end.

Definition exec (v : variant) (st : state v) (c : call) : state v :=
  match c with
  | c_open => snd (open (fops v) st)
  | c_release => snd (release (fops v) st)
  | c_read room amt off sg => r_st (read (fops v) st room amt off sg)
  | c_write src amt off sg => w_st (write (fops v) st src amt off sg)
  | c_poll => snd (poll (fops v) st)
  | c_ioctl cmd arg => snd (unlocked_ioctl (fops v) st cmd arg)
  end.

(** States reachable from the initial state by calls that satisfy [P]. *)
Inductive reachable_by (P : call -> Prop) (v : variant) : state v -> Prop :=
| reach_init : reachable_by P v (init v)
| reach_step st c :
    reachable_by P v st -> P c -> reachable_by P v (exec v st c).

Definition reachable : forall v : variant, state v -> Prop :=
  reachable_by well_typed.

(** A call that is not a write of zero bytes. *)
Definition nonempty_write (c : call) : Prop :=
  match c with
  | c_write _ amt _ _ => amt <> 0
  | _ => True
  end.

(** What the guard of the write handler compares the request with. *)
Definition write_limit (v : variant) : state v -> Z :=
  match v with
  | mychardev_c => MyCharDev.dev_buf_size
  | second_driver => fun _ => Device.BUF_LEN
  end.

(** A state as the C declarations describe it: a 256-byte array, a length
    that fits in it. *)
Definition well_formed (v : variant) (st : state v) : Prop :=
  length (contents v st) = Z.to_nat capacity /\
  0 <= buf_size v st <= capacity.

(** *** Loading and unloading *)

(** What a load or an unload holds in the kernel. *)
Inductive resource : Type :=
| chrdev_region  (* the device number *)
| char_device    (* the cdev added to the system *)
| device_class   (* the class *)
| device_node.   (* the device under /dev *)

(** The resource a call has obtained: the call succeeded. *)
Definition acquired (e : kcall) : list resource :=
  match e with
  | k_alloc_chrdev_region _ _ ret => if ret =? 0 then [chrdev_region] else []
  | k_cdev_add _ _ ret => if ret =? 0 then [char_device] else []
  | k_class_create ret => if IS_ERR ret then [] else [device_class]
  | k_device_create _ _ ret => if IS_ERR ret then [] else [device_node]
  | _ => []
  end.

(** The resource a call gives back. *)
Definition released (e : kcall) : list resource :=
  match e with
  | k_unregister_chrdev_region _ _ => [chrdev_region]
  | k_cdev_del => [char_device]
  | k_class_destroy _ => [device_class]
  | k_device_destroy _ _ => [device_node]
  | _ => []
  end.

Definition acquisitions (log : list kcall) : list resource :=
  flat_map acquired log.

Definition releases (log : list kcall) : list resource :=
  flat_map released log.

(** The answers the kernel can give: [alloc_chrdev_region] and [cdev_add]
    return 0 or a negative [int]; a pointer is an address. *)
Definition kernel_env_ok (k : kernel_env) : Prop :=
  - 2 ^ 31 <= alloc_chrdev_region_ret k <= 0 /\
  - 2 ^ 31 <= cdev_add_ret k <= 0 /\
  is_size_t (class_create_ret k) /\
  is_size_t (device_create_ret k).

(** Two states, one of each driver, with the same store. *)
Definition same_store (a : MyCharDev.globals) (b : Device.globals) : Prop :=
  MyCharDev.dev_buf a = Device.device_buffer b /\
  MyCharDev.dev_buf_size a = Device.device_buffer_size b /\
  MyCharDev.data_available a = Device.data_available b.

(** A call other than the reset command. *)
Definition not_reset (v : variant) (c : call) : Prop :=
  match c with
  | c_ioctl cmd _ => cmd <> RESET v
  | _ => True
  end.

(** Sample answers of the kernel: every call succeeds; [class_create]
    fails with [-ENOMEM] and [device_create] then with [-ENODEV]. *)
Definition env_all_ok : kernel_env :=
  {| alloc_chrdev_region_ret := 0; allocated_dev := 0x0f000000;
     cdev_add_ret := 0; class_create_ret := 0x1000;
     device_create_ret := 0x2000 |}.

Definition env_class_fails : kernel_env :=
  {| alloc_chrdev_region_ret := 0; allocated_dev := 0x0f000000;
     cdev_add_ret := 0; class_create_ret := 2 ^ 64 - 12;
     device_create_ret := 2 ^ 64 - 19 |}.

(** *** Sample data: the scenario of ten digits *)

(** The bytes of "0123456789". *)
Definition digits : list byte :=
  [x30; x31; x32; x33; x34; x35; x36; x37; x38; x39].

(** The second driver after [write "0123456789"]. *)
Definition digits_written : state second_driver :=
  exec second_driver (init second_driver) (c_write digits 10 0 false).

(** ... and after a first read of five bytes at offset 0. *)
Definition digits_half_read : state second_driver :=
  exec second_driver digits_written (c_read 5 5 0 false).

(** The kernel memory a read handler hands to [copy_to_user] as the source:
    [dev_buf] in [src/mychardev.c], [device_buffer + *device_buffer_offset]
    in the second driver. *)
Definition read_source (v : variant) : state v -> Z -> list byte :=
  match v with
  | mychardev_c => fun st _ => MyCharDev.dev_buf st
  | second_driver =>
      fun st off => skipn (Z.to_nat off) (Device.device_buffer st)
  end.


(** * Properties *)

(** Case analysis on the conditionals of a handler. *)
Ltac handler_cases :=
  repeat match goal with
         | |- context [if ?c then _ else _] => destruct c eqn:?
         | |- context [let (_, _) := ?p in _] => destruct p eqn:?
         end.

(** ** Integer conversions and user-memory transfers *)

Lemma to_size_t_id (x : Z) : is_size_t x -> to_size_t x = x.
Proof.
  unfold is_size_t, to_size_t. intros H. apply Z.mod_small. exact H.
Qed.

Lemma to_size_t_nonneg (x : Z) : 0 <= to_size_t x.
Proof.
  unfold to_size_t. apply Z.mod_pos_bound. reflexivity.
Qed.

Lemma to_ssize_t_id (x : Z) : 0 <= x < 2 ^ 63 -> to_ssize_t x = x.
Proof.
  intros H. unfold to_ssize_t.
  rewrite Z.mod_small by lia.
  destruct (Z.ltb_spec x (2 ^ 63)); lia.
Qed.

Lemma copy_to_user_ok (room : nat) (from : list byte) (n : Z) :
  n <= Z.of_nat room ->
  copy_to_user room from n = (firstn (Z.to_nat n) from, 0).
Proof.
  intros H. unfold copy_to_user.
  rewrite Z.min_l by exact H. f_equal. lia.
Qed.

Lemma copy_to_user_fault (room : nat) (from : list byte) (n : Z) :
  Z.of_nat room < n ->
  copy_to_user room from n
  = (firstn room from, n - Z.of_nat room) /\ n - Z.of_nat room <> 0.
Proof.
  intros H. unfold copy_to_user.
  rewrite Z.min_r by lia. rewrite Nat2Z.id. split; [reflexivity | lia].
Qed.

Lemma copy_from_user_ok (to from : list byte) (n : Z) :
  n <= Z.of_nat (length from) ->
  copy_from_user to from n
  = (firstn (Z.to_nat n) from ++ skipn (Z.to_nat n) to, 0).
Proof.
  intros H. unfold copy_from_user.
  rewrite Z.min_l by exact H.
  replace (n - n) with 0 by lia. reflexivity.
Qed.

Lemma copy_from_user_fault (to from : list byte) (n : Z) :
  Z.of_nat (length from) < n ->
  copy_from_user to from n
  = (from ++ repeat x00 (Z.to_nat (n - Z.of_nat (length from)))
       ++ skipn (Z.to_nat n) to,
     n - Z.of_nat (length from))
  /\ n - Z.of_nat (length from) <> 0.
Proof.
  intros H. unfold copy_from_user.
  rewrite Z.min_r by lia. rewrite Nat2Z.id, firstn_all.
  split; [reflexivity | lia].
Qed.

(** Whatever happens, a transfer of [n] bytes into kernel memory leaves the
    bytes from index [n] on untouched. *)
Lemma copy_from_user_tail (to from : list byte) (n : Z) :
  skipn (Z.to_nat n) (fst (copy_from_user to from n)) = skipn (Z.to_nat n) to.
Proof.
  unfold copy_from_user. cbn [fst].
  set (done := Z.min n (Z.of_nat (length from))).
  rewrite app_assoc.
  assert (Hlen : length (firstn (Z.to_nat done) from
                           ++ repeat x00 (Z.to_nat (n - done)))
                 = Z.to_nat n).
  { rewrite length_app, length_firstn, repeat_length. subst done. lia. }
  rewrite skipn_app, Hlen, Nat.sub_diag.
  rewrite skipn_all2 by (rewrite Hlen; apply Nat.le_refl).
  reflexivity.
Qed.

Lemma copy_from_user_length (to from : list byte) (n : Z) :
  0 <= n <= Z.of_nat (length to) ->
  length (fst (copy_from_user to from n)) = length to.
Proof.
  intros H. unfold copy_from_user. cbn [fst].
  rewrite !length_app, length_firstn, repeat_length, length_skipn. lia.
Qed.

Lemma memset_length (buf : list byte) (c : byte) (n : Z) :
  0 <= n <= Z.of_nat (length buf) -> length (memset buf c n) = length buf.
Proof.
  intros H. unfold memset.
  rewrite length_app, repeat_length, length_skipn. lia.
Qed.

(** ** Reachable states *)

Lemma reachable_by_weaken (P Q : call -> Prop) (v : variant) (st : state v) :
  (forall c, P c -> Q c) -> reachable_by P v st -> reachable_by Q v st.
Proof.
  intros HPQ H. induction H as [| st c _ IH Hc].
  - apply reach_init.
  - apply reach_step; [exact IH | apply HPQ; exact Hc].
Qed.

(** In [src/mychardev.c] a call leaves [dev_buf_size] at 0 and the array at
    its 256 bytes once they are so. *)
Lemma mychardev_exec_keeps_empty (st : MyCharDev.globals) (c : call) :
  well_typed c ->
  MyCharDev.dev_buf_size st = 0 ->
  length (MyCharDev.dev_buf st) = Z.to_nat capacity ->
  MyCharDev.dev_buf_size (exec mychardev_c st c) = 0 /\
  length (MyCharDev.dev_buf (exec mychardev_c st c)) = Z.to_nat capacity.
Proof.
  intros Hc Hsz Hlen.
  destruct c as [| | room amt off sg | src amt off sg | | cmd arg];
    cbn [exec fops MyCharDev.file_ops open release read write poll
         unlocked_ioctl]; try (split; assumption).
  - unfold MyCharDev.dev_read. rewrite Hsz.
    destruct (Z.geb_spec (to_size_t off) 0) as [_ | Hneg].
    + split; assumption.
    + pose proof (to_size_t_nonneg off). lia.
  - destruct Hc as [[Hamt _] _].
    unfold MyCharDev.dev_write. rewrite Hsz.
    destruct (Z.gtb_spec amt 0) as [Hpos | Hzero]; [split; assumption |].
    assert (amt = 0) by lia. subst amt.
    handler_cases; cbn [w_st MyCharDev.dev_buf_size MyCharDev.dev_buf];
      try (split; assumption).
    all: pose proof (copy_from_user_length (MyCharDev.dev_buf st) src 0) as Hl.
    all: rewrite Heqp in Hl; cbn [fst] in Hl.
    all: split; [first [exact Hsz | reflexivity] |].
    all: rewrite Hl; [exact Hlen | lia].
  - unfold MyCharDev.dev_ioctl.
    destruct (cmd =? MyCharDev.IOCTL_RESET_BUF);
      cbn [snd MyCharDev.dev_buf_size MyCharDev.dev_buf];
      [| split; assumption].
    split; [reflexivity |].
    rewrite memset_length; [exact Hlen |].
    rewrite Hlen. unfold MyCharDev.DEV_BUF_LEN, capacity. lia.
Qed.

Lemma mychardev_reachable_empty (st : MyCharDev.globals) :
  reachable mychardev_c st ->
  MyCharDev.dev_buf_size st = 0 /\
  length (MyCharDev.dev_buf st) = Z.to_nat capacity.
Proof.
  intros H. induction H as [| st c _ IH Hc].
  - split; [reflexivity |]. cbn. apply repeat_length.
  - destruct IH as [Hsz Hlen].
    apply (mychardev_exec_keeps_empty st c Hc Hsz Hlen).
Qed.

(** In the second driver a call keeps the array at 256 bytes and the length
    within it. *)
Lemma device_exec_well_formed (st : Device.globals) (c : call) :
  well_typed c ->
  well_formed second_driver st ->
  well_formed second_driver (exec second_driver st c).
Proof.
  intros Hc [Hlen Hsz]. unfold well_formed in *.
  cbn [contents buf_size] in *.
  destruct c as [| | room amt off sg | src amt off sg | | cmd arg];
    cbn [exec fops Device.file_ops open release read write poll
         unlocked_ioctl]; try (split; assumption).
  - unfold Device.device_read.
    handler_cases; cbn [r_st Device.set_data_available Device.device_buffer
                        Device.device_buffer_size]; split; assumption.
  - destruct Hc as [[Hamt _] _].
    unfold Device.device_write.
    destruct (Z.gtb_spec amt Device.BUF_LEN) as [Hbig | Hfit];
      [split; assumption |].
    unfold Device.BUF_LEN in Hfit.
    assert (Hl : length (fst (copy_from_user (Device.device_buffer st) src amt))
                 = length (Device.device_buffer st)).
    { apply copy_from_user_length. rewrite Hlen. unfold capacity. lia. }
    handler_cases; cbn [w_st Device.device_buffer Device.device_buffer_size];
      try (split; assumption);
      cbn [fst] in Hl; rewrite Hl;
      (split; [exact Hlen | unfold capacity in *; lia]).
  - unfold Device.device_ioctl.
    destruct (cmd =? Device.IOCTL_RESET_BUFFER);
      cbn [snd Device.device_buffer Device.device_buffer_size];
      [| split; assumption].
    split; [| unfold capacity; lia].
    rewrite memset_length; [exact Hlen |].
    rewrite Hlen. unfold Device.BUF_LEN, capacity. lia.
Qed.

Lemma reachable_well_formed (v : variant) (st : state v) :
  reachable v st -> well_formed v st.
Proof.
  intros H. induction H as [| st c Hr IH Hc].
  - destruct v; (split; [cbn; apply repeat_length | cbn; unfold capacity; lia]).
  - destruct v.
    + destruct (mychardev_reachable_empty (exec mychardev_c st c)) as [Hs Hl].
      { apply reach_step; assumption. }
      split; [exact Hl | cbn [buf_size]; rewrite Hs; unfold capacity; lia].
    + apply device_exec_well_formed; assumption.
Qed.

(** ** The read handlers, branch by branch *)

Lemma read_at_end (v : variant) (st : state v) (room : nat)
    (amt off : Z) (sg : bool) :
  0 <= off < 2 ^ 63 ->
  buf_size v st <= off ->
  read (fops v) st room amt off sg = mk_read 0 [] off st.
Proof.
  intros Hoff Hend.
  assert (Hu : to_size_t off = off) by (apply to_size_t_id; red; lia).
  destruct v; cbn [buf_size] in Hend; cbn [fops read MyCharDev.file_ops
    Device.file_ops].
  - unfold MyCharDev.dev_read. rewrite Hu.
    destruct (Z.geb_spec off (MyCharDev.dev_buf_size st)); [reflexivity | lia].
  - unfold Device.device_read. rewrite Hu.
    destruct (Z.geb_spec off (Device.device_buffer_size st));
      [reflexivity | lia].
Qed.

Lemma read_interrupted (v : variant) (st : state v) (room : nat)
    (amt off : Z) :
  let r := read (fops v) st room amt off true in
  (r_ret r = 0 \/ r_ret r = - ERESTARTSYS) /\ r_user r = [] /\
  r_off r = off /\ r_st r = st.
Proof.
  destruct v; cbn [fops read MyCharDev.file_ops Device.file_ops].
  - unfold MyCharDev.dev_read.
    destruct (to_size_t off >=? MyCharDev.dev_buf_size st); cbn; auto.
  - unfold Device.device_read.
    destruct (to_size_t off >=? Device.device_buffer_size st); cbn; auto.
Qed.

(** [src/mychardev.c] passes [dev_buf] to [copy_to_user]: the bytes come
    from the start of the array. *)
Lemma dev_read_copy (st : MyCharDev.globals) (room : nat) (amt off : Z) :
  0 <= off < MyCharDev.dev_buf_size st ->
  MyCharDev.dev_buf_size st < 2 ^ 64 ->
  off + Z.min amt (MyCharDev.dev_buf_size st - off) < 2 ^ 63 ->
  0 <= amt ->
  Z.min amt (MyCharDev.dev_buf_size st - off) <= Z.of_nat room ->
  MyCharDev.dev_read st room amt off false
  = mk_read (Z.min amt (MyCharDev.dev_buf_size st - off))
      (firstn (Z.to_nat (Z.min amt (MyCharDev.dev_buf_size st - off)))
              (MyCharDev.dev_buf st))
      (off + Z.min amt (MyCharDev.dev_buf_size st - off))
      (MyCharDev.set_data_available st 0).
Proof.
  intros Hoff Hsz Hsum Hamt Hroom.
  set (size := MyCharDev.dev_buf_size st) in *.
  assert (Hu : to_size_t off = off) by (apply to_size_t_id; red; lia).
  assert (Hrem : to_size_t (size - off) = size - off)
    by (apply to_size_t_id; red; lia).
  unfold MyCharDev.dev_read. fold size. rewrite Hu, Hrem.
  destruct (Z.geb_spec off size); [lia |].
  cbn [mutex_lock_interruptible negb Z.eqb MyCharDev.SUCCESSFUL].
  assert (Hclamp : (if amt >? size - off then size - off else amt)
                   = Z.min amt (size - off)).
  { destruct (Z.gtb_spec amt (size - off)); lia. }
  rewrite Hclamp. set (m := Z.min amt (size - off)) in *.
  rewrite copy_to_user_ok by exact Hroom.
  cbn [negb Z.eqb MyCharDev.SUCCESSFUL].
  unfold to_loff_t. rewrite !to_ssize_t_id by lia. reflexivity.
Qed.

(** The second driver passes [device_buffer + *device_buffer_offset]. *)
Lemma device_read_copy (st : Device.globals) (room : nat) (amt off : Z) :
  0 <= off < Device.device_buffer_size st ->
  Device.device_buffer_size st < 2 ^ 64 ->
  off + Z.min amt (Device.device_buffer_size st - off) < 2 ^ 63 ->
  0 <= amt ->
  Z.min amt (Device.device_buffer_size st - off) <= Z.of_nat room ->
  Device.device_read st room amt off false
  = mk_read (Z.min amt (Device.device_buffer_size st - off))
      (firstn (Z.to_nat (Z.min amt (Device.device_buffer_size st - off)))
              (skipn (Z.to_nat off) (Device.device_buffer st)))
      (off + Z.min amt (Device.device_buffer_size st - off))
      (Device.set_data_available st 0).
Proof.
  intros Hoff Hsz Hsum Hamt Hroom.
  set (size := Device.device_buffer_size st) in *.
  assert (Hu : to_size_t off = off) by (apply to_size_t_id; red; lia).
  assert (Hrem : to_size_t (size - off) = size - off)
    by (apply to_size_t_id; red; lia).
  unfold Device.device_read. fold size. rewrite Hu, Hrem.
  destruct (Z.geb_spec off size); [lia |].
  cbn [mutex_lock_interruptible negb Z.eqb Device.MUTEX_SUCCESS].
  assert (Hclamp : (if amt >? size - off then size - off else amt)
                   = Z.min amt (size - off)).
  { destruct (Z.gtb_spec amt (size - off)); lia. }
  rewrite Hclamp. set (m := Z.min amt (size - off)) in *.
  rewrite copy_to_user_ok by exact Hroom.
  cbn [negb Z.eqb].
  unfold to_loff_t. rewrite !to_ssize_t_id by lia. reflexivity.
Qed.

(** A read whose transfer to the caller faults. *)
Lemma read_fault (v : variant) (st : state v) (room : nat) (amt off : Z) :
  0 <= off < buf_size v st ->
  buf_size v st < 2 ^ 64 ->
  Z.of_nat room < Z.min amt (buf_size v st - off) ->
  let r := read (fops v) st room amt off false in
  r_ret r = - EFAULT /\ r_off r = off /\ r_st r = st.
Proof.
  intros Hoff Hsz Hroom.
  assert (Hu : to_size_t off = off) by (apply to_size_t_id; red; lia).
  assert (Hrem : to_size_t (buf_size v st - off) = buf_size v st - off)
    by (apply to_size_t_id; red; lia).
  assert (Hclamp : (if amt >? buf_size v st - off
                    then buf_size v st - off else amt)
                   = Z.min amt (buf_size v st - off)).
  { destruct (Z.gtb_spec amt (buf_size v st - off)); lia. }
  destruct v; cbn [buf_size] in *;
    cbn [fops read MyCharDev.file_ops Device.file_ops].
  - unfold MyCharDev.dev_read. rewrite Hu, Hrem, Hclamp.
    destruct (Z.geb_spec off (MyCharDev.dev_buf_size st)); [lia |].
    cbn [mutex_lock_interruptible negb Z.eqb MyCharDev.SUCCESSFUL].
    destruct (copy_to_user_fault room (MyCharDev.dev_buf st) _ Hroom)
      as [-> Hnz].
    apply Z.eqb_neq in Hnz. unfold MyCharDev.SUCCESSFUL. rewrite Hnz.
    cbn. auto.
  - unfold Device.device_read. rewrite Hu, Hrem, Hclamp.
    destruct (Z.geb_spec off (Device.device_buffer_size st)); [lia |].
    cbn [mutex_lock_interruptible negb Z.eqb Device.MUTEX_SUCCESS].
    destruct (copy_to_user_fault room
                (skipn (Z.to_nat off) (Device.device_buffer st)) _ Hroom)
      as [-> Hnz].
    apply Z.eqb_neq in Hnz. rewrite Hnz.
    cbn. auto.
Qed.

(** ** The write handlers, branch by branch *)

Lemma dev_write_rejected (st : MyCharDev.globals) (src : list byte)
    (amt off : Z) (sg : bool) :
  MyCharDev.dev_buf_size st < amt ->
  MyCharDev.dev_write st src amt off sg = mk_write (- EINVAL) off st.
Proof.
  intros H. unfold MyCharDev.dev_write.
  destruct (Z.gtb_spec amt (MyCharDev.dev_buf_size st)); [reflexivity | lia].
Qed.

Lemma dev_write_ok (st : MyCharDev.globals) (src : list byte) (amt off : Z) :
  0 <= amt <= MyCharDev.dev_buf_size st ->
  amt < 2 ^ 63 ->
  amt <= Z.of_nat (length src) ->
  MyCharDev.dev_write st src amt off false
  = mk_write amt off
      {| MyCharDev.data_available := 1;
         MyCharDev.dev_buf :=
           firstn (Z.to_nat amt) src
             ++ skipn (Z.to_nat amt) (MyCharDev.dev_buf st);
         MyCharDev.dev_buf_size := amt |}.
Proof.
  intros Hamt Hbig Hsrc. unfold MyCharDev.dev_write.
  destruct (Z.gtb_spec amt (MyCharDev.dev_buf_size st)); [lia |].
  cbn [mutex_lock_interruptible negb Z.eqb MyCharDev.SUCCESSFUL].
  rewrite copy_from_user_ok by exact Hsrc.
  cbn [negb Z.eqb]. rewrite to_ssize_t_id by lia. reflexivity.
Qed.

Lemma device_write_rejected (st : Device.globals) (src : list byte)
    (amt off : Z) (sg : bool) :
  Device.BUF_LEN < amt ->
  Device.device_write st src amt off sg = mk_write (- EINVAL) off st.
Proof.
  intros H. unfold Device.device_write.
  destruct (Z.gtb_spec amt Device.BUF_LEN); [reflexivity | lia].
Qed.

Lemma device_write_ok (st : Device.globals) (src : list byte) (amt off : Z) :
  0 <= amt <= Device.BUF_LEN ->
  amt <= Z.of_nat (length src) ->
  Device.device_write st src amt off false
  = mk_write amt off
      {| Device.device_buffer :=
           firstn (Z.to_nat amt) src
             ++ skipn (Z.to_nat amt) (Device.device_buffer st);
         Device.device_buffer_size := amt;
         Device.data_available := 1 |}.
Proof.
  intros Hamt Hsrc. unfold Device.device_write.
  destruct (Z.gtb_spec amt Device.BUF_LEN); [lia |].
  cbn [mutex_lock_interruptible negb Z.eqb].
  rewrite copy_from_user_ok by exact Hsrc.
  cbn [negb Z.eqb]. unfold Device.BUF_LEN in Hamt.
  rewrite to_ssize_t_id by lia. reflexivity.
Qed.

(** The second driver takes every payload that fits the array and refuses
    every longer one. *)
Lemma device_write_bytes_capacity (st : Device.globals) (b : list byte) :
  (capacity < Z.of_nat (length b) ->
   write_bytes second_driver st b = mk_write (- EINVAL) 0 st) /\
  (Z.of_nat (length b) <= capacity ->
   write_bytes second_driver st b
   = mk_write (Z.of_nat (length b)) 0
       {| Device.device_buffer :=
            b ++ skipn (length b) (Device.device_buffer st);
          Device.device_buffer_size := Z.of_nat (length b);
          Device.data_available := 1 |}).
Proof.
  unfold write_bytes, capacity.
  cbn [fops write Device.file_ops]. split; intros H.
  - apply device_write_rejected. unfold Device.BUF_LEN. exact H.
  - rewrite device_write_ok by (unfold Device.BUF_LEN; lia).
    rewrite Nat2Z.id, firstn_all. reflexivity.
Qed.

(** C1.  For every byte sequence [b] of at most 256 bytes and every state, a
    successful [write(b)] followed by a read at session offset 0 that asks
    for [length b] bytes returns exactly the bytes [b] (and the count
    [length b]); this holds in both drivers. *)
Theorem write_then_read_returns_bytes (v : variant) (st : state v)
    (b : list byte) (room : nat) :
  Z.of_nat (length b) <= capacity ->
  0 <= w_ret (write_bytes v st b) ->
  (length b <= room)%nat ->
  let st' := w_st (write_bytes v st b) in
  let r := read (fops v) st' room (Z.of_nat (length b)) 0 false in
  r_ret r = Z.of_nat (length b) /\ r_user r = b.
Proof.
  intros Hcap Hok Hroom. unfold capacity in Hcap.
  assert (Hw : exists buf,
             write_bytes v st b = mk_write (Z.of_nat (length b)) 0 buf /\
             buf_size v buf = Z.of_nat (length b) /\
             contents v buf = b ++ skipn (length b) (contents v st)).
  { destruct v.
    - unfold write_bytes in *. cbn [fops write MyCharDev.file_ops] in *.
      destruct (Z_lt_le_dec (MyCharDev.dev_buf_size st)
                            (Z.of_nat (length b))) as [Hlt | Hle].
      + rewrite dev_write_rejected in Hok by exact Hlt.
        cbn in Hok. lia.
      + rewrite dev_write_ok by lia.
        eexists. split; [reflexivity |]. cbn [buf_size contents
          MyCharDev.dev_buf_size MyCharDev.dev_buf].
        rewrite Nat2Z.id, firstn_all. split; reflexivity.
    - destruct (device_write_bytes_capacity st b) as [_ Hfit].
      rewrite Hfit by (unfold capacity; lia).
      eexists. split; [reflexivity |]. split; reflexivity. }
  destruct Hw as (st1 & -> & Hsize & Hbuf). cbn [w_st].
  destruct b as [| x b'].
  - rewrite read_at_end by (rewrite ?Hsize; cbn; lia). split; reflexivity.
  - set (b := x :: b') in *.
    assert (Hpos : 0 < Z.of_nat (length b)) by (subst b; cbn [length]; lia).
    assert (Hmin : Z.min (Z.of_nat (length b)) (Z.of_nat (length b) - 0)
                   = Z.of_nat (length b)) by lia.
    destruct v; cbn [buf_size contents fops read MyCharDev.file_ops
                     Device.file_ops] in *.
    + rewrite dev_read_copy by (rewrite ?Hsize, ?Hmin; lia).
      rewrite Hsize, Hmin, Hbuf, Nat2Z.id. cbn [r_ret r_user].
      split; [reflexivity |].
      rewrite firstn_app, Nat.sub_diag, firstn_all. cbn [firstn].
      apply app_nil_r.
    + rewrite device_read_copy by (rewrite ?Hsize, ?Hmin; lia).
      rewrite Hsize, Hmin, Hbuf, Nat2Z.id. cbn [r_ret r_user].
      split; [reflexivity |].
      change (Z.to_nat 0) with 0%nat. cbn [skipn].
      rewrite firstn_app, Nat.sub_diag, firstn_all. cbn [firstn].
      apply app_nil_r.
Qed.

Lemma write_then_read_returns_bytes_witness :
  Z.of_nat (length digits) <= capacity /\
  r_user (read (fops second_driver)
               (w_st (write_bytes second_driver (init second_driver) digits))
               10 10 0 false) = digits.
Proof.
  split; [vm_compute; discriminate |].
  apply (write_then_read_returns_bytes second_driver (init second_driver)
           digits 10).
  - vm_compute; discriminate.
  - vm_compute; discriminate.
  - apply Nat.le_refl.
Defined.

(** ** The contract of read *)

(** X15.  A read in any state with the 256-byte array and a length within
    it, in either driver: when the session offset is at or past the length
    it returns zero bytes and changes neither the globals nor the offset;
    otherwise, with no signal and no transfer fault, it returns exactly
    [min(max_len, length - offset)] bytes and advances the offset by that
    number, leaving contents and length as they were.  The bytes are the
    head of what the handler hands to [copy_to_user]: in the second driver
    the contents from the session offset on, in [src/mychardev.c] the
    contents from index 0 on, whatever the offset. *)
Theorem read_copies_from_source (v : variant) (st : state v) (room : nat)
    (amt off : Z) (sg : bool) :
  well_formed v st ->
  is_size_t amt ->
  0 <= off < 2 ^ 63 ->
  let r := read (fops v) st room amt off sg in
  (buf_size v st <= off -> r = mk_read 0 [] off st) /\
  (off < buf_size v st ->
   sg = false ->
   Z.min amt (buf_size v st - off) <= Z.of_nat room ->
   let m := Z.min amt (buf_size v st - off) in
   r_ret r = m /\
   r_user r = firstn (Z.to_nat m) (read_source v st off) /\
   Z.of_nat (length (r_user r)) = m /\
   r_off r = off + m /\
   contents v (r_st r) = contents v st /\
   buf_size v (r_st r) = buf_size v st).
Proof.
  intros [Hlen Hsz] [Hamt0 _] Hoff. cbv zeta. split.
  - intros Hend. apply read_at_end; assumption.
  - intros Hlt -> Hroom. unfold capacity in *.
    destruct v; cbn [buf_size contents read_source fops read
                     MyCharDev.file_ops Device.file_ops] in *.
    + rewrite dev_read_copy by lia. cbn [r_ret r_user r_off r_st].
      repeat split.
      rewrite length_firstn, Hlen. lia.
    + rewrite device_read_copy by lia. cbn [r_ret r_user r_off r_st].
      repeat split.
      rewrite length_firstn, length_skipn, Hlen. lia.
Qed.

Lemma digits_half_read_reachable : reachable second_driver digits_half_read.
Proof.
  unfold digits_half_read, digits_written.
  apply reach_step; [apply reach_step; [apply reach_init |] |];
    cbn; unfold is_size_t; lia.
Defined.

Lemma read_copies_from_source_witness :
  let r := read (fops second_driver) digits_half_read 5 5 5 false in
  well_formed second_driver digits_half_read /\
  r_ret r = 5 /\ r_user r = [x35; x36; x37; x38; x39] /\ r_off r = 10.
Proof.
  assert (Hwf : well_formed second_driver digits_half_read).
  { split; [reflexivity | vm_compute; split; discriminate]. }
  destruct (read_copies_from_source second_driver digits_half_read 5 5 5
              false Hwf) as [_ H].
  - unfold is_size_t. lia.
  - lia.
  - destruct H as (Hret & Huser & _ & Hoff & _).
    + vm_compute. reflexivity.
    + reflexivity.
    + vm_compute. discriminate.
    + cbv zeta. split; [exact Hwf |].
      rewrite Hret, Huser, Hoff. vm_compute. repeat split.
Defined.


(** ** The capacity guard of write *)

(** C3.  The claim fails in [src/mychardev.c]: [dev_write] compares the
    request with [dev_buf_size], the current length, where the second driver
    compares it with the capacity of the array.  In the initial state a
    write of one byte, which fits the 256 bytes, comes back with [-EINVAL]
    and leaves the state as it was. *)
Theorem mychardev_write_one_byte_rejected :
  Z.of_nat (length [x41]) <= capacity /\
  write_bytes mychardev_c (init mychardev_c) [x41]
  = mk_write (- EINVAL) 0 (init mychardev_c) /\
  w_ret (write_bytes second_driver (init second_driver) [x41]) = 1.
Proof.
  split; [vm_compute; discriminate |]. split; reflexivity.
Qed.

(** ** The availability flag and the length *)

(** C4.  The claim fails in both drivers: a write of zero bytes passes the
    guard, stores the length 0 and sets [data_available] to 1.  The state is
    reachable; a poll in it reports READABLE while a read at offset 0
    returns no byte and leaves the flag set. *)
Theorem empty_write_sets_flag_without_data (v : variant) :
  let w := write_bytes v (init v) [] in
  let r := read (fops v) (w_st w) 1 1 0 false in
  reachable v (w_st w) /\
  w_ret w = 0 /\
  data_available v (w_st w) = 1 /\
  buf_size v (w_st w) = 0 /\
  readable (fst (poll (fops v) (w_st w))) = true /\
  r_ret r = 0 /\ data_available v (r_st r) = 1.
Proof.
  cbv zeta. split.
  - apply (reach_step well_typed v (init v) (c_write [] 0 0 false)).
    + apply reach_init.
    + cbn. unfold is_size_t. lia.
  - destruct v; vm_compute; repeat split.
Qed.

(** Writes of zero bytes are the only way to break the invariant: along
    calls that are not such writes, a set flag comes with a positive
    length. *)
Lemma flag_implies_data_without_empty_writes (v : variant) (st : state v) :
  reachable_by (fun c => well_typed c /\ nonempty_write c) v st ->
  data_available v st <> 0 -> 0 < buf_size v st.
Proof.
  intros H. induction H as [| st c _ IH [Hty Hne]].
  - destruct v; cbn; congruence.
  - destruct v; cbn [data_available buf_size] in *;
      destruct c as [| | room amt off sg | src amt off sg | | cmd arg];
      cbn [exec fops MyCharDev.file_ops Device.file_ops open release read
           write poll unlocked_ioctl]; try exact IH.
    + unfold MyCharDev.dev_read. handler_cases; cbn; auto; congruence.
    + destruct Hty as [[Hamt _] _]. cbn in Hne.
      unfold MyCharDev.dev_write. handler_cases; cbn; auto. intros _. lia.
    + unfold MyCharDev.dev_ioctl. handler_cases; cbn; auto; congruence.
    + unfold Device.device_read. handler_cases; cbn; auto; congruence.
    + destruct Hty as [[Hamt _] _]. cbn in Hne.
      unfold Device.device_write. handler_cases; cbn; auto. intros _. lia.
    + unfold Device.device_ioctl. handler_cases; cbn; auto; congruence.
Qed.

(** ** Poll and the eager clearing of the flag *)

Lemma poll_mask (v : variant) (st : state v) :
  poll (fops v) st
  = (if data_available v st =? 0 then 0 else READABLE, st).
Proof.
  destruct v; cbn [fops poll MyCharDev.file_ops Device.file_ops
                   data_available].
  - unfold MyCharDev.dev_poll.
    destruct (MyCharDev.data_available st =? 0); reflexivity.
  - unfold Device.device_poll.
    destruct (Device.data_available st =? 0); reflexivity.
Qed.

(** C5.  In either driver and any state: after a successful write the flag
    is 1 and poll reports READABLE; after a read that returned at least one
    byte the flag is 0 and poll does not report READABLE, whatever remains
    unread past the new session offset. *)
Theorem eager_clear (v : variant) (st : state v) :
  (forall src amt off sg,
     let w := write (fops v) st src amt off sg in
     0 <= w_ret w ->
     data_available v (w_st w) = 1 /\
     readable (fst (poll (fops v) (w_st w))) = true) /\
  (forall room amt off sg,
     let r := read (fops v) st room amt off sg in
     0 < r_ret r ->
     data_available v (r_st r) = 0 /\
     readable (fst (poll (fops v) (r_st r))) = false).
Proof.
  split.
  - intros src amt off sg w Hok.
    assert (Hflag : data_available v (w_st w) = 1).
    { subst w. destruct v;
        cbn [fops write MyCharDev.file_ops Device.file_ops data_available]
          in *.
      - unfold MyCharDev.dev_write in *. revert Hok.
        handler_cases; cbn; intros; try reflexivity; lia.
      - unfold Device.device_write in *. revert Hok.
        handler_cases; cbn; intros; try reflexivity; lia. }
    split; [exact Hflag |]. rewrite poll_mask, Hflag. reflexivity.
  - intros room amt off sg r Hpos.
    assert (Hflag : data_available v (r_st r) = 0).
    { subst r. destruct v;
        cbn [fops read MyCharDev.file_ops Device.file_ops data_available]
          in *.
      - unfold MyCharDev.dev_read in *. revert Hpos.
        handler_cases; cbn; intros; try reflexivity; lia.
      - unfold Device.device_read in *. revert Hpos.
        handler_cases; cbn; intros; try reflexivity; lia. }
    split; [exact Hflag |]. rewrite poll_mask, Hflag. reflexivity.
Qed.

Lemma eager_clear_witness :
  let r := read (fops second_driver) digits_written 5 5 0 false in
  0 < r_ret r /\
  r_off r < buf_size second_driver (r_st r) /\
  readable (fst (poll (fops second_driver) (r_st r))) = false.
Proof.
  cbv zeta. split; [vm_compute; reflexivity |].
  split; [vm_compute; reflexivity |].
  apply (proj2 (eager_clear second_driver digits_written) 5%nat 5 0 false).
  vm_compute. reflexivity.
Defined.

(** C6.  In either driver and any state, poll returns the globals as it got
    them, and its mask has the readable bits exactly when [data_available]
    is non-zero (the mask is then [POLLIN | POLLRDNORM], and 0 otherwise).
    The session offset is not among the parameters of the poll handler. *)
Theorem poll_reports_flag (v : variant) (st : state v) :
  snd (poll (fops v) st) = st /\
  (readable (fst (poll (fops v) st)) = true <-> data_available v st <> 0) /\
  (fst (poll (fops v) st) = 0 <-> data_available v st = 0).
Proof.
  rewrite poll_mask. cbn [fst snd]. split; [reflexivity |].
  destruct (Z.eqb_spec (data_available v st) 0) as [Hz | Hnz].
  - split; split; intros H; try reflexivity; try assumption.
    + vm_compute in H. discriminate.
    + contradiction.
  - split; split; intros H; try reflexivity; try assumption.
    + vm_compute in H. discriminate.
    + contradiction.
Qed.

(** ** Reset *)

(** C7.  In either driver and any state whose array has its 256 bytes, the
    reset command returns 0, leaves every byte of the contents zero, the
    length 0 and the flag 0; a second reset returns 0 and the very same
    state. *)
Theorem reset_clears_and_is_idempotent (v : variant) (st : state v)
    (arg arg' : Z) :
  length (contents v st) = Z.to_nat capacity ->
  let st' := snd (unlocked_ioctl (fops v) st (RESET v) arg) in
  fst (unlocked_ioctl (fops v) st (RESET v) arg) = 0 /\
  contents v st' = repeat x00 (Z.to_nat capacity) /\
  buf_size v st' = 0 /\
  data_available v st' = 0 /\
  unlocked_ioctl (fops v) st' (RESET v) arg' = (0, st').
Proof.
  intros Hlen.
  assert (Hzero : forall buf : list byte,
             length buf = Z.to_nat capacity ->
             memset buf x00 capacity = repeat x00 (Z.to_nat capacity)).
  { intros buf Hb. unfold memset.
    rewrite skipn_all2 by (rewrite Hb; apply Nat.le_refl).
    apply app_nil_r. }
  destruct v; cbn [contents buf_size data_available fops unlocked_ioctl
                   MyCharDev.file_ops Device.file_ops RESET] in *.
  - unfold MyCharDev.dev_ioctl. rewrite Z.eqb_refl.
    cbn [fst snd MyCharDev.dev_buf MyCharDev.dev_buf_size
         MyCharDev.data_available].
    change MyCharDev.DEV_BUF_LEN with capacity.
    rewrite (Hzero _ Hlen), Hzero by apply repeat_length.
    repeat split.
  - unfold Device.device_ioctl. rewrite Z.eqb_refl.
    cbn [fst snd Device.device_buffer Device.device_buffer_size
         Device.data_available].
    change Device.BUF_LEN with capacity.
    rewrite (Hzero _ Hlen), Hzero by apply repeat_length.
    repeat split.
Qed.

Lemma reset_clears_and_is_idempotent_witness :
  length (contents second_driver digits_written) = Z.to_nat capacity /\
  contents second_driver
    (snd (unlocked_ioctl (fops second_driver) digits_written
            (RESET second_driver) 0))
  = repeat x00 (Z.to_nat capacity).
Proof.
  split; [vm_compute; reflexivity |].
  apply (reset_clears_and_is_idempotent second_driver digits_written 0 0).
  vm_compute. reflexivity.
Defined.

(** ** Transfer faults *)

(** C8 as stated fails: the write handlers hand the device array itself to
    [copy_from_user], so a transfer that faults has already overwritten the
    head of the contents.  After ["0123456789"] a write of two bytes from a
    buffer with one readable byte returns [-EFAULT] and leaves ["X\0"] where
    ["01"] was; the next read sees it. *)
Lemma failed_write_overwrites_contents :
  let w := write (fops second_driver) digits_written [x58] 2 0 false in
  w_ret w = - EFAULT /\
  contents second_driver (w_st w) <> contents second_driver digits_written /\
  r_user (read (fops second_driver) (w_st w) 10 10 0 false)
  = [x58; x00; x32; x33; x34; x35; x36; x37; x38; x39].
Proof.
  cbv zeta. split; [reflexivity |]. split; [| reflexivity].
  vm_compute. discriminate.
Qed.

(** C8, amended.  In either driver, in a state whose length is a [size_t]
    value: a read whose transfer to the caller faults returns [-EFAULT] and
    changes neither the globals nor the session offset; a write whose
    transfer from the caller faults returns [-EFAULT] and leaves the length,
    the flag and the session offset as they were, and the contents from
    index [amt] on; the first [amt] bytes of the contents now hold the bytes
    that were readable, followed by zeros. *)
Theorem transfer_fault_effects (v : variant) (st : state v) :
  is_size_t (buf_size v st) ->
  (forall room amt off,
     0 <= off < buf_size v st ->
     Z.of_nat room < Z.min amt (buf_size v st - off) ->
     let r := read (fops v) st room amt off false in
     r_ret r = - EFAULT /\ r_off r = off /\ r_st r = st) /\
  (forall src amt off,
     amt <= write_limit v st ->
     Z.of_nat (length src) < amt ->
     let w := write (fops v) st src amt off false in
     w_ret w = - EFAULT /\ w_off w = off /\
     buf_size v (w_st w) = buf_size v st /\
     data_available v (w_st w) = data_available v st /\
     skipn (Z.to_nat amt) (contents v (w_st w))
     = skipn (Z.to_nat amt) (contents v st) /\
     firstn (Z.to_nat amt) (contents v (w_st w))
     = src ++ repeat x00 (Z.to_nat (amt - Z.of_nat (length src)))).
Proof.
  intros [Hsz0 Hsz]. split.
  - intros room amt off Hoff Hroom. apply read_fault; assumption.
  - intros src amt off Hlim Hsrc.
    assert (Hhead : forall tl : list byte,
               firstn (Z.to_nat amt)
                 (src ++ repeat x00 (Z.to_nat (amt - Z.of_nat (length src)))
                      ++ tl)
               = src ++ repeat x00 (Z.to_nat (amt - Z.of_nat (length src)))).
    { intros tl. rewrite app_assoc.
      assert (Hl : length (src ++ repeat x00
                             (Z.to_nat (amt - Z.of_nat (length src))))
                   = Z.to_nat amt)
        by (rewrite length_app, repeat_length; lia).
      rewrite firstn_app, Hl, Nat.sub_diag. cbn [firstn].
      rewrite app_nil_r. rewrite <- Hl. apply firstn_all. }
    destruct v; cbn [write_limit buf_size data_available contents fops write
                     MyCharDev.file_ops Device.file_ops] in *.
    + pose proof (copy_from_user_tail (MyCharDev.dev_buf st) src amt) as Htl.
      unfold MyCharDev.dev_write.
      destruct (Z.gtb_spec amt (MyCharDev.dev_buf_size st)); [lia |].
      cbn [mutex_lock_interruptible negb Z.eqb MyCharDev.SUCCESSFUL].
      destruct (copy_from_user_fault (MyCharDev.dev_buf st) src amt Hsrc)
        as [Heq Hnz].
      rewrite Heq in *. apply Z.eqb_neq in Hnz.
      unfold MyCharDev.SUCCESSFUL. rewrite Hnz.
      cbn [negb w_ret w_off w_st MyCharDev.dev_buf MyCharDev.dev_buf_size
           MyCharDev.data_available fst] in *.
      repeat split; [exact Htl | apply Hhead].
    + pose proof (copy_from_user_tail (Device.device_buffer st) src amt)
        as Htl.
      unfold Device.device_write.
      destruct (Z.gtb_spec amt Device.BUF_LEN); [lia |].
      cbn [mutex_lock_interruptible negb Z.eqb].
      destruct (copy_from_user_fault (Device.device_buffer st) src amt Hsrc)
        as [Heq Hnz].
      rewrite Heq in *. apply Z.eqb_neq in Hnz. rewrite Hnz.
      cbn [negb w_ret w_off w_st Device.device_buffer
           Device.device_buffer_size Device.data_available fst] in *.
      repeat split; [exact Htl | apply Hhead].
Qed.

Lemma transfer_fault_effects_witness :
  is_size_t (buf_size second_driver digits_written) /\
  (let w := write (fops second_driver) digits_written [x58] 2 0 false in
   w_ret w = - EFAULT /\
   buf_size second_driver (w_st w) = 10 /\
   data_available second_driver (w_st w) = 1) /\
  (let r := read (fops second_driver) digits_written 3 5 0 false in
   r_ret r = - EFAULT /\ r_st r = digits_written).
Proof.
  assert (Hsz : is_size_t (buf_size second_driver digits_written))
    by (vm_compute; split; [discriminate | reflexivity]).
  destruct (transfer_fault_effects second_driver digits_written Hsz)
    as [Hread Hwrite].
  split; [exact Hsz |]. split.
  - destruct (Hwrite [x58] 2 0) as (Hret & _ & Hlen & Hflag & _).
    + vm_compute. discriminate.
    + vm_compute. reflexivity.
    + cbv zeta. rewrite Hret, Hlen, Hflag. repeat split.
  - destruct (Hread 3%nat 5 0) as (Hret & _ & Hst).
    + vm_compute. split; [discriminate | reflexivity].
    + vm_compute. reflexivity.
    + cbv zeta. rewrite Hret, Hst. split; reflexivity.
Defined.

(** ** The length in src/mychardev.c *)

Lemma dev_write_never_grows (st : MyCharDev.globals) (src : list byte)
    (amt off : Z) (sg : bool) :
  MyCharDev.dev_buf_size (w_st (MyCharDev.dev_write st src amt off sg))
  <= MyCharDev.dev_buf_size st.
Proof.
  unfold MyCharDev.dev_write.
  destruct (Z.gtb_spec amt (MyCharDev.dev_buf_size st)); [cbn; lia |].
  handler_cases; cbn [w_st MyCharDev.dev_buf_size]; lia.
Qed.

(** C9.  In [src/mychardev.c]: [dev_buf_size] starts at 0; [dev_write]
    refuses a request longer than [dev_buf_size] and otherwise never stores a
    larger length; reset stores 0.  So [dev_buf_size] is 0 in every reachable
    state, where every write that asks for at least one byte returns
    [-EINVAL] with the state unchanged and every read returns zero bytes with
    the state and the offset unchanged. *)
Theorem mychardev_length_stays_zero (st : MyCharDev.globals) :
  reachable mychardev_c st ->
  MyCharDev.dev_buf_size MyCharDev.initial = 0 /\
  MyCharDev.dev_buf_size st = 0 /\
  (forall src amt off sg,
     (MyCharDev.dev_buf_size st < amt ->
      MyCharDev.dev_write st src amt off sg = mk_write (- EINVAL) off st) /\
     MyCharDev.dev_buf_size (w_st (MyCharDev.dev_write st src amt off sg))
     <= MyCharDev.dev_buf_size st) /\
  (forall arg,
     MyCharDev.dev_buf_size
       (snd (MyCharDev.dev_ioctl st MyCharDev.IOCTL_RESET_BUF arg)) = 0) /\
  (forall src amt off sg,
     0 < amt ->
     MyCharDev.dev_write st src amt off sg = mk_write (- EINVAL) off st) /\
  (forall room amt off sg,
     MyCharDev.dev_read st room amt off sg = mk_read 0 [] off st).
Proof.
  intros Hreach.
  destruct (mychardev_reachable_empty st Hreach) as [Hsz _].
  split; [reflexivity |]. split; [exact Hsz |]. split; [| split; [| split]].
  - intros src amt off sg. split.
    + apply dev_write_rejected.
    + apply dev_write_never_grows.
  - intros arg. unfold MyCharDev.dev_ioctl. rewrite Z.eqb_refl. reflexivity.
  - intros src amt off sg Hpos. apply dev_write_rejected. lia.
  - intros room amt off sg. unfold MyCharDev.dev_read. rewrite Hsz.
    pose proof (to_size_t_nonneg off).
    destruct (Z.geb_spec (to_size_t off) 0); [reflexivity | lia].
Qed.

Lemma mychardev_length_stays_zero_witness :
  let st := exec mychardev_c (init mychardev_c) (c_write [] 0 0 false) in
  reachable mychardev_c st /\
  MyCharDev.dev_write st digits 10 0 false = mk_write (- EINVAL) 0 st /\
  MyCharDev.dev_read st 10 10 0 false = mk_read 0 [] 0 st.
Proof.
  cbv zeta.
  assert (Hreach : reachable mychardev_c
            (exec mychardev_c (init mychardev_c) (c_write [] 0 0 false))).
  { apply reach_step; [apply reach_init |].
    cbn. unfold is_size_t. lia. }
  split; [exact Hreach |].
  destruct (mychardev_length_stays_zero _ Hreach)
    as (_ & _ & _ & _ & Hwrite & Hread).
  split; [apply Hwrite; reflexivity | apply Hread].
Defined.

(** ** A read that asks for zero bytes *)

(** C10.  In either driver, in any state whose session offset is below the
    length, a read that asks for 0 bytes (no signal) returns 0 and no byte,
    leaves the contents, the length and the offset as they were, and still
    sets [data_available] to 0: the next poll does not report READABLE. *)
Theorem zero_length_read_clears_flag (v : variant) (st : state v)
    (room : nat) (off : Z) :
  is_size_t (buf_size v st) ->
  0 <= off < buf_size v st ->
  off < 2 ^ 63 ->
  let r := read (fops v) st room 0 off false in
  r_ret r = 0 /\ r_user r = [] /\ r_off r = off /\
  contents v (r_st r) = contents v st /\
  buf_size v (r_st r) = buf_size v st /\
  data_available v (r_st r) = 0 /\
  readable (fst (poll (fops v) (r_st r))) = false.
Proof.
  intros [_ Hsz] Hoff Hbig.
  assert (Hmin : Z.min 0 (buf_size v st - off) = 0) by lia.
  assert (Hkey : let r := read (fops v) st room 0 off false in
                 r_ret r = 0 /\ r_user r = [] /\ r_off r = off /\
                 contents v (r_st r) = contents v st /\
                 buf_size v (r_st r) = buf_size v st /\
                 data_available v (r_st r) = 0).
  { destruct v; cbn [buf_size contents data_available fops read
                     MyCharDev.file_ops Device.file_ops] in *.
    - rewrite dev_read_copy by lia. rewrite Hmin.
      cbn. rewrite Z.add_0_r. repeat split.
    - rewrite device_read_copy by lia. rewrite Hmin.
      cbn. rewrite Z.add_0_r. repeat split. }
  cbv zeta in *. destruct Hkey as (H1 & H2 & H3 & H4 & H5 & H6).
  repeat (split; [assumption |]).
  rewrite poll_mask, H6. reflexivity.
Qed.

Lemma zero_length_read_clears_flag_witness :
  data_available second_driver digits_written = 1 /\
  (let r := read (fops second_driver) digits_written 0 0 0 false in
   r_ret r = 0 /\
   readable (fst (poll (fops second_driver) (r_st r))) = false).
Proof.
  split; [reflexivity |].
  destruct (zero_length_read_clears_flag second_driver digits_written 0 0)
    as (Hret & _ & _ & _ & _ & _ & Hpoll).
  - vm_compute. split; [discriminate | reflexivity].
  - vm_compute. split; [discriminate | reflexivity].
  - reflexivity.
  - split; assumption.
Defined.

(** ** The scenario of the specification, and a note on src/mychardev.c *)

(** Second driver: write ["0123456789"]; a read of 5 returns ["01234"] with
    the offset at 5 and READABLE off; a read of 5 returns ["56789"] with the
    offset at 10; a read of 5 returns nothing. *)
Lemma digits_scenario :
  let r1 := read (fops second_driver) digits_written 5 5 0 false in
  let r2 := read (fops second_driver) (r_st r1) 5 5 (r_off r1) false in
  let r3 := read (fops second_driver) (r_st r2) 5 5 (r_off r2) false in
  r_user r1 = [x30; x31; x32; x33; x34] /\ r_off r1 = 5 /\
  readable (fst (poll (fops second_driver) (r_st r1))) = false /\
  r_user r2 = [x35; x36; x37; x38; x39] /\ r_off r2 = 10 /\
  r_ret r3 = 0 /\ r_user r3 = [].
Proof.
  vm_compute. repeat split.
Qed.

(** [dev_read] of [src/mychardev.c] would hand out the bytes at the start
    of the array whatever the offset; no reachable state has a length for
    that to show ([mychardev_length_stays_zero]). *)
Lemma dev_read_ignores_offset :
  let st := {| MyCharDev.data_available := 1;
               MyCharDev.dev_buf := digits ++ repeat x00 246;
               MyCharDev.dev_buf_size := 10 |} in
  r_user (MyCharDev.dev_read st 5 5 5 false) = [x30; x31; x32; x33; x34].
Proof.
  vm_compute. reflexivity.
Qed.

(** * Further properties of the handlers *)

(** ** What a read can and cannot change *)

Lemma read_frame (v : variant) (st : state v) (room : nat)
    (amt off : Z) (sg : bool) :
  let r := read (fops v) st room amt off sg in
  contents v (r_st r) = contents v st /\
  buf_size v (r_st r) = buf_size v st /\
  (data_available v (r_st r) = data_available v st \/
   data_available v (r_st r) = 0).
Proof.
  destruct v; cbn [fops read MyCharDev.file_ops Device.file_ops contents
                   buf_size data_available].
  - unfold MyCharDev.dev_read. handler_cases; cbn; auto.
  - unfold Device.device_read. handler_cases; cbn; auto.
Qed.

(** What a read returns depends on the store through the contents and the
    length only. *)
Lemma read_depends_on_store (v : variant) (st1 st2 : state v) (room : nat)
    (amt off : Z) (sg : bool) :
  contents v st1 = contents v st2 ->
  buf_size v st1 = buf_size v st2 ->
  let r1 := read (fops v) st1 room amt off sg in
  let r2 := read (fops v) st2 room amt off sg in
  r_ret r1 = r_ret r2 /\ r_user r1 = r_user r2 /\ r_off r1 = r_off r2.
Proof.
  destruct v; cbn [fops read MyCharDev.file_ops Device.file_ops contents
                   buf_size]; intros Hc Hs.
  - unfold MyCharDev.dev_read. rewrite Hc, Hs.
    handler_cases; cbn; auto.
  - unfold Device.device_read. rewrite Hc, Hs.
    handler_cases; cbn; auto.
Qed.

(** X4.  Sessions do not consume each other's data: what a session reads at its
    offset is the same whether or not another session has read before it,
    in both drivers and in any state. *)
Theorem reads_do_not_consume (v : variant) (st : state v)
    (room1 room2 : nat) (amt1 off1 amt2 off2 : Z) (sg1 sg2 : bool) :
  let other := read (fops v) st room1 amt1 off1 sg1 in
  let after := read (fops v) (r_st other) room2 amt2 off2 sg2 in
  let alone := read (fops v) st room2 amt2 off2 sg2 in
  r_ret after = r_ret alone /\ r_user after = r_user alone /\
  r_off after = r_off alone.
Proof.
  cbv zeta.
  destruct (read_frame v st room1 amt1 off1 sg1) as (Hc & Hs & _).
  apply read_depends_on_store; assumption.
Qed.

(** ** Invariants of the reachable states *)

Lemma exec_flag_bit (v : variant) (st : state v) (c : call) :
  data_available v st = 0 \/ data_available v st = 1 ->
  data_available v (exec v st c) = 0 \/ data_available v (exec v st c) = 1.
Proof.
  intros H.
  destruct v; cbn [data_available] in *;
    destruct c as [| | room amt off sg | src amt off sg | | cmd arg];
    cbn [exec fops MyCharDev.file_ops Device.file_ops open release read
         write poll unlocked_ioctl]; try exact H.
  - unfold MyCharDev.dev_read. handler_cases; cbn; auto.
  - unfold MyCharDev.dev_write. handler_cases; cbn; auto.
  - unfold MyCharDev.dev_ioctl. handler_cases; cbn; auto.
  - unfold Device.device_read. handler_cases; cbn; auto.
  - unfold Device.device_write. handler_cases; cbn; auto.
  - unfold Device.device_ioctl. handler_cases; cbn; auto.
Qed.

(** X1.  In every state either driver can reach, the array has its 256 bytes,
    the length lies between 0 and 256, and [data_available] is 0 or 1: no
    accepted write runs past the array and no read starts past it. *)
Theorem reachable_state_invariant (v : variant) (st : state v) :
  reachable v st ->
  length (contents v st) = 256%nat /\
  0 <= buf_size v st <= 256 /\
  (data_available v st = 0 \/ data_available v st = 1).
Proof.
  intros H.
  destruct (reachable_well_formed v st H) as [Hlen Hsz].
  split; [exact Hlen |]. split; [exact Hsz |].
  clear Hlen Hsz. induction H as [| st c _ IH _].
  - destruct v; left; reflexivity.
  - apply exec_flag_bit. exact IH.
Qed.

Lemma reachable_state_invariant_witness :
  reachable second_driver digits_half_read /\
  length (contents second_driver digits_half_read) = 256%nat /\
  0 <= buf_size second_driver digits_half_read <= 256.
Proof.
  split; [exact digits_half_read_reachable |].
  destruct (reachable_state_invariant second_driver digits_half_read
              digits_half_read_reachable) as (Hlen & Hsz & _).
  split; assumption.
Defined.

(** ** The outcomes of a read *)

(** X2.  Every read in a reachable state, whatever the arguments: it returns
    [-ERESTARTSYS], [-EFAULT] or a count between 0 and the request; an error
    leaves the globals and the offset as they were; a count is the number of
    bytes delivered, the offset advances by it and never passes the length
    (unless it already had). *)
Theorem read_outcomes (v : variant) (st : state v) (room : nat)
    (amt off : Z) (sg : bool) :
  reachable v st ->
  is_size_t amt ->
  0 <= off < 2 ^ 63 ->
  let r := read (fops v) st room amt off sg in
  (r_ret r = - ERESTARTSYS \/ r_ret r = - EFAULT \/ 0 <= r_ret r <= amt) /\
  (r_ret r < 0 -> r_st r = st /\ r_off r = off) /\
  (0 <= r_ret r ->
   Z.of_nat (length (r_user r)) = r_ret r /\
   r_off r = off + r_ret r /\
   r_off r <= Z.max off (buf_size v st)).
Proof.
  intros Hreach [Hamt0 Hamt] Hoff. cbv zeta.
  destruct (reachable_well_formed v st Hreach) as [Hlen Hsz].
  unfold capacity in *.
  destruct (Z_le_gt_dec (buf_size v st) off) as [Hend | Hin].
  { rewrite read_at_end by assumption. cbn [r_ret r_user r_off r_st length].
    repeat split; lia. }
  destruct sg.
  { destruct (read_interrupted v st room amt off) as (Hret & Hu & Ho & Hs).
    assert (Hr : r_ret (read (fops v) st room amt off true) = - ERESTARTSYS).
    { destruct v; cbn [buf_size fops read MyCharDev.file_ops Device.file_ops]
        in *.
      - unfold MyCharDev.dev_read.
        rewrite to_size_t_id by (red; lia).
        destruct (Z.geb_spec off (MyCharDev.dev_buf_size st)); [lia |].
        reflexivity.
      - unfold Device.device_read.
        rewrite to_size_t_id by (red; lia).
        destruct (Z.geb_spec off (Device.device_buffer_size st)); [lia |].
        reflexivity. }
    rewrite Hr, Ho, Hs. unfold ERESTARTSYS.
    repeat split; lia. }
  set (m := Z.min amt (buf_size v st - off)).
  destruct (Z_le_gt_dec m (Z.of_nat room)) as [Hroom | Hfault].
  - assert (Hcopy : let r := read (fops v) st room amt off false in
              r_ret r = m /\ Z.of_nat (length (r_user r)) = m /\
              r_off r = off + m).
    { destruct v; cbn [buf_size contents fops read MyCharDev.file_ops
                       Device.file_ops] in *.
      - rewrite dev_read_copy by (fold m; lia). fold m.
        cbn [r_ret r_user r_off]. repeat split.
        rewrite length_firstn, Hlen. lia.
      - rewrite device_read_copy by (fold m; lia). fold m.
        cbn [r_ret r_user r_off]. repeat split.
        rewrite length_firstn, length_skipn, Hlen. lia. }
    cbv zeta in Hcopy. destruct Hcopy as (Hret & Hu & Ho).
    rewrite Hret, Hu, Ho. unfold m in *.
    repeat split; lia.
  - destruct (read_fault v st room amt off) as (Hret & Ho & Hs);
      [lia | lia | fold m; lia |].
    rewrite Hret, Ho, Hs. unfold EFAULT.
    repeat split; lia.
Qed.

Lemma read_outcomes_witness :
  let r := read (fops second_driver) digits_half_read 2 5 5 false in
  r_ret r = - EFAULT /\ r_st r = digits_half_read /\ r_off r = 5.
Proof.
  destruct (read_outcomes second_driver digits_half_read 2 5 5 false
              digits_half_read_reachable) as (_ & Herr & _).
  - unfold is_size_t. lia.
  - lia.
  - cbv zeta. split; [reflexivity |]. apply Herr. vm_compute. reflexivity.
Defined.

(** ** The outcomes of a write *)

(** X3.  Every write in a reachable state, whatever the arguments: the session
    offset is never moved; the return value is [-EINVAL], [-ERESTARTSYS],
    [-EFAULT] or the full request (never a partial count); [-EINVAL] and
    [-ERESTARTSYS] leave the globals untouched and any error leaves the
    length and the flag; a success stores the request as the new length,
    sets the flag, puts the payload at the head of the array and keeps the
    old bytes behind it. *)
Theorem write_outcomes (v : variant) (st : state v) (src : list byte)
    (amt off : Z) (sg : bool) :
  reachable v st ->
  is_size_t amt ->
  let w := write (fops v) st src amt off sg in
  w_off w = off /\
  (w_ret w = - EINVAL \/ w_ret w = - ERESTARTSYS \/ w_ret w = - EFAULT \/
   w_ret w = amt) /\
  (w_ret w = - EINVAL \/ w_ret w = - ERESTARTSYS -> w_st w = st) /\
  (w_ret w < 0 ->
   buf_size v (w_st w) = buf_size v st /\
   data_available v (w_st w) = data_available v st) /\
  (0 <= w_ret w ->
   amt <= capacity /\
   buf_size v (w_st w) = amt /\
   data_available v (w_st w) = 1 /\
   firstn (Z.to_nat amt) (contents v (w_st w)) = firstn (Z.to_nat amt) src /\
   length (firstn (Z.to_nat amt) src) = Z.to_nat amt /\
   skipn (Z.to_nat amt) (contents v (w_st w))
   = skipn (Z.to_nat amt) (contents v st)).
Proof.
  intros Hreach [Hamt0 Hamt]. cbv zeta.
  destruct (reachable_well_formed v st Hreach) as [Hlen Hsz].
  unfold capacity in *.
  assert (Hhead : forall tl : list byte,
             amt <= Z.of_nat (length src) ->
             firstn (Z.to_nat amt) (firstn (Z.to_nat amt) src ++ tl)
             = firstn (Z.to_nat amt) src /\
             length (firstn (Z.to_nat amt) src) = Z.to_nat amt /\
             skipn (Z.to_nat amt) (firstn (Z.to_nat amt) src ++ tl) = tl).
  { intros tl Hsrc.
    assert (Hl : length (firstn (Z.to_nat amt) src) = Z.to_nat amt)
      by (rewrite length_firstn; lia).
    split; [| split; [exact Hl |]].
    - rewrite firstn_app, Hl, Nat.sub_diag. cbn [firstn].
      rewrite app_nil_r. rewrite <- Hl at 1. apply firstn_all.
    - rewrite skipn_app, Hl, Nat.sub_diag. cbn [skipn].
      rewrite skipn_all2 by (rewrite Hl; apply Nat.le_refl). reflexivity. }
  assert (Hcases :
            forall limit : Z, limit <= 256 ->
            forall buf : list byte,
            (limit < amt) \/
            (amt <= limit /\ sg = true) \/
            (amt <= limit /\ sg = false /\ Z.of_nat (length src) < amt) \/
            (amt <= limit /\ sg = false /\ amt <= Z.of_nat (length src))).
  { intros limit _ _. destruct sg; lia. }
  destruct v; cbn [buf_size data_available contents fops write
                   MyCharDev.file_ops Device.file_ops] in *.
  - destruct (Hcases (MyCharDev.dev_buf_size st) ltac:(lia)
                     (MyCharDev.dev_buf st))
      as [Hbig | [[Hfit ->] | [(Hfit & -> & Hsrc) | (Hfit & -> & Hsrc)]]].
    + rewrite dev_write_rejected by exact Hbig. cbn. unfold EINVAL.
      repeat split; auto; lia.
    + unfold MyCharDev.dev_write.
      destruct (Z.gtb_spec amt (MyCharDev.dev_buf_size st)); [lia |].
      cbn. unfold ERESTARTSYS. repeat split; auto; lia.
    + unfold MyCharDev.dev_write.
      destruct (Z.gtb_spec amt (MyCharDev.dev_buf_size st)); [lia |].
      cbn [mutex_lock_interruptible negb Z.eqb MyCharDev.SUCCESSFUL].
      destruct (copy_from_user_fault (MyCharDev.dev_buf st) src amt Hsrc)
        as [-> Hnz].
      apply Z.eqb_neq in Hnz. unfold MyCharDev.SUCCESSFUL. rewrite Hnz.
      cbn [negb w_ret w_off w_st MyCharDev.dev_buf_size
           MyCharDev.data_available].
      unfold EFAULT, EINVAL, ERESTARTSYS.
      repeat split; auto; try lia; try (intros [H | H]; lia).
    + rewrite dev_write_ok by lia.
      cbn [w_ret w_off w_st MyCharDev.dev_buf MyCharDev.dev_buf_size
           MyCharDev.data_available].
      destruct (Hhead (skipn (Z.to_nat amt) (MyCharDev.dev_buf st)) Hsrc)
        as (H1 & H2 & H3).
      unfold EINVAL, ERESTARTSYS. repeat split; auto; try lia; try (intros [H | H]; lia).
  - destruct (Hcases Device.BUF_LEN ltac:(unfold Device.BUF_LEN; lia)
                     (Device.device_buffer st))
      as [Hbig | [[Hfit ->] | [(Hfit & -> & Hsrc) | (Hfit & -> & Hsrc)]]].
    + rewrite device_write_rejected by exact Hbig. cbn. unfold EINVAL.
      repeat split; auto; lia.
    + unfold Device.device_write.
      destruct (Z.gtb_spec amt Device.BUF_LEN); [lia |].
      cbn. unfold ERESTARTSYS. repeat split; auto; lia.
    + unfold Device.device_write.
      destruct (Z.gtb_spec amt Device.BUF_LEN); [lia |].
      cbn [mutex_lock_interruptible negb Z.eqb].
      destruct (copy_from_user_fault (Device.device_buffer st) src amt Hsrc)
        as [-> Hnz].
      apply Z.eqb_neq in Hnz. rewrite Hnz.
      cbn [negb w_ret w_off w_st Device.device_buffer_size
           Device.data_available].
      unfold EFAULT, EINVAL, ERESTARTSYS.
      repeat split; auto; try lia; try (intros [H | H]; lia).
    + unfold Device.BUF_LEN in Hfit.
      rewrite device_write_ok by (unfold Device.BUF_LEN; lia).
      cbn [w_ret w_off w_st Device.device_buffer Device.device_buffer_size
           Device.data_available].
      destruct (Hhead (skipn (Z.to_nat amt) (Device.device_buffer st)) Hsrc)
        as (H1 & H2 & H3).
      unfold EINVAL, ERESTARTSYS. repeat split; auto; try lia; try (intros [H | H]; lia).
Qed.

Lemma write_outcomes_witness :
  let w := write (fops second_driver) digits_half_read digits 4 7 false in
  w_off w = 7 /\ w_ret w = 4 /\
  buf_size second_driver (w_st w) = 4 /\
  firstn 4 (contents second_driver (w_st w)) = [x30; x31; x32; x33].
Proof.
  destruct (write_outcomes second_driver digits_half_read digits 4 7 false
              digits_half_read_reachable) as (Hoff & _ & _ & _ & Hok).
  - unfold is_size_t. lia.
  - destruct Hok as (_ & Hsz & _ & Hhead & _); [vm_compute; discriminate |].
    cbv zeta. split; [exact Hoff |]. split; [vm_compute; reflexivity |].
    split; [exact Hsz | exact Hhead].
Defined.

(** ** Reading in pieces *)

Lemma firstn_split_at (a b : nat) (l : list byte) :
  firstn a l ++ firstn b (skipn a l) = firstn (a + b) l.
Proof.
  revert l. induction a as [| a IH]; intros l.
  - reflexivity.
  - destruct l as [| x l]; cbn [firstn skipn Nat.add app].
    + rewrite firstn_nil. reflexivity.
    + rewrite IH. reflexivity.
Qed.

(** X5.  Second driver, any state with the 256-byte array and a length within
    it: a read of [a] bytes followed by a read of [b] bytes at the offset the
    first one left delivers, together, what one read of [a + b] bytes
    delivers, and leaves the same offset and the same state (no signal, room
    for the bytes). *)
Theorem device_reads_compose (st : Device.globals) (room : nat)
    (a b off : Z) :
  well_formed second_driver st ->
  0 <= off < 2 ^ 63 ->
  0 <= a -> 0 <= b ->
  a + b <= Z.of_nat room ->
  let r1 := Device.device_read st room a off false in
  let r2 := Device.device_read (r_st r1) room b (r_off r1) false in
  let r := Device.device_read st room (a + b) off false in
  r_user r1 ++ r_user r2 = r_user r /\
  r_ret r1 + r_ret r2 = r_ret r /\
  r_off r2 = r_off r /\
  r_st r2 = r_st r.
Proof.
  intros [Hlen Hsz] Hoff Ha Hb Hroom. cbv zeta.
  cbn [contents buf_size] in *. unfold capacity in *.
  destruct (Z_le_gt_dec (Device.device_buffer_size st) off) as [Hend | Hin].
  { pose proof (read_at_end second_driver st room) as E.
    cbn [fops read Device.file_ops buf_size] in E.
    rewrite !E by assumption. cbn [r_st r_off r_user r_ret].
    rewrite ?E by assumption. cbn. repeat split. }
  set (size := Device.device_buffer_size st) in *.
  rewrite (device_read_copy st room a off) by (fold size; lia).
  rewrite (device_read_copy st room (a + b) off) by (fold size; lia).
  fold size. cbn [r_st r_off r_user r_ret].
  destruct (Z_le_gt_dec (size - off) a) as [Hall | Hpart].
  - (* the first read reaches the end *)
    rewrite Z.min_r by lia.
    rewrite (Z.min_r (a + b)) by lia.
    pose proof (read_at_end second_driver (Device.set_data_available st 0)
                  room b (off + (size - off)) false) as E.
    cbn [fops read Device.file_ops buf_size Device.set_data_available
         Device.device_buffer_size] in E.
    rewrite E by (fold size; lia). cbn [r_st r_off r_user r_ret].
    rewrite app_nil_r. repeat split; lia.
  - rewrite (Z.min_l a) by lia.
    rewrite (device_read_copy (Device.set_data_available st 0) room b
               (off + a))
      by (cbn [Device.set_data_available Device.device_buffer_size];
          fold size; lia).
    cbn [Device.set_data_available Device.device_buffer_size
         Device.device_buffer r_st r_off r_user r_ret].
    fold size.
    assert (Hm : Z.min (a + b) (size - off)
                 = a + Z.min b (size - (off + a))) by lia.
    rewrite Hm. set (m := Z.min b (size - (off + a))).
    assert (Hm0 : 0 <= m) by (subst m; lia).
    repeat split; try lia.
    replace (Z.to_nat (off + a)) with (Z.to_nat a + Z.to_nat off)%nat by lia.
    rewrite <- (skipn_skipn (Z.to_nat a) (Z.to_nat off)).
    rewrite firstn_split_at. f_equal. lia.
Qed.

Lemma device_reads_compose_witness :
  let r1 := Device.device_read digits_written 10 3 2 false in
  let r2 := Device.device_read (r_st r1) 10 4 (r_off r1) false in
  well_formed second_driver digits_written /\
  r_user r1 ++ r_user r2 = [x32; x33; x34; x35; x36; x37; x38] /\
  r_off r2 = 9.
Proof.
  assert (Hwf : well_formed second_driver digits_written).
  { split; [reflexivity | vm_compute; split; discriminate]. }
  destruct (device_reads_compose digits_written 10 3 4 2 Hwf)
    as (Hcat & _ & Hoff & _); try lia.
  cbv zeta. split; [exact Hwf |]. rewrite Hcat, Hoff.
  split; reflexivity.
Defined.

(** ** A write does not rewind the sessions *)

Lemma write_bytes_success (v : variant) (st : state v) (b : list byte) :
  Z.of_nat (length b) <= capacity ->
  0 <= w_ret (write_bytes v st b) ->
  buf_size v (w_st (write_bytes v st b)) = Z.of_nat (length b) /\
  data_available v (w_st (write_bytes v st b)) = 1.
Proof.
  intros Hcap Hok. unfold capacity in Hcap. destruct v.
  - unfold write_bytes in *. cbn [fops write MyCharDev.file_ops] in *.
    destruct (Z_lt_le_dec (MyCharDev.dev_buf_size st) (Z.of_nat (length b)))
      as [Hlt | Hle].
    + rewrite dev_write_rejected in Hok by exact Hlt. cbn in Hok. lia.
    + rewrite dev_write_ok by lia. split; reflexivity.
  - destruct (device_write_bytes_capacity st b) as [_ Hfit].
    rewrite Hfit by (unfold capacity; lia). split; reflexivity.
Qed.

(** X6.  In either driver, after a successful write of [b] a session whose
    offset is at or past [length b] (it has read that far before) gets no
    byte from a read, whatever it asks for, while poll keeps reporting
    READABLE: the write does not move the offset back and such a read does
    not clear the flag. *)
Theorem write_does_not_rewind (v : variant) (st : state v) (b : list byte)
    (room : nat) (amt off : Z) (sg : bool) :
  Z.of_nat (length b) <= capacity ->
  0 <= w_ret (write_bytes v st b) ->
  Z.of_nat (length b) <= off < 2 ^ 63 ->
  let st' := w_st (write_bytes v st b) in
  let r := read (fops v) st' room amt off sg in
  readable (fst (poll (fops v) st')) = true /\
  r = mk_read 0 [] off st' /\
  readable (fst (poll (fops v) (r_st r))) = true.
Proof.
  intros Hcap Hok Hoff. cbv zeta.
  destruct (write_bytes_success v st b Hcap Hok) as [Hsz Hflag].
  rewrite read_at_end by lia. cbn [r_st].
  rewrite poll_mask, Hflag. repeat split.
Qed.

Lemma write_does_not_rewind_witness :
  let st' := w_st (write_bytes second_driver digits_half_read digits) in
  Z.of_nat (length digits) <= capacity /\
  read (fops second_driver) st' 5 5 10 false = mk_read 0 [] 10 st' /\
  readable (fst (poll (fops second_driver) st')) = true.
Proof.
  cbv zeta. split; [vm_compute; discriminate |].
  destruct (write_does_not_rewind second_driver digits_half_read digits
              5 5 10 false) as (Hpoll & Hread & _).
  - vm_compute. discriminate.
  - vm_compute. discriminate.
  - vm_compute. split; [discriminate | reflexivity].
  - split; [exact Hread | exact Hpoll].
Defined.

(** ** The flag in src/mychardev.c *)

(** X7.  In [src/mychardev.c] no read can clear the flag: in a reachable state
    where [data_available] is 1, it is still 1 after any call other than the
    reset command, so poll reports READABLE until a reset. *)
Theorem mychardev_flag_stays_set (st : MyCharDev.globals) (c : call) :
  reachable mychardev_c st ->
  well_typed c ->
  not_reset mychardev_c c ->
  MyCharDev.data_available st = 1 ->
  MyCharDev.data_available (exec mychardev_c st c) = 1 /\
  readable (fst (MyCharDev.dev_poll (exec mychardev_c st c))) = true.
Proof.
  intros Hreach Hty Hnr Hflag.
  destruct (mychardev_reachable_empty st Hreach) as [Hsz _].
  assert (H : MyCharDev.data_available (exec mychardev_c st c) = 1).
  { destruct c as [| | room amt off sg | src amt off sg | | cmd arg];
      cbn [exec fops MyCharDev.file_ops open release read write poll
           unlocked_ioctl]; try exact Hflag.
    - unfold MyCharDev.dev_read. rewrite Hsz.
      pose proof (to_size_t_nonneg off).
      destruct (Z.geb_spec (to_size_t off) 0); [exact Hflag | lia].
    - unfold MyCharDev.dev_write. handler_cases; cbn; auto.
    - cbn in Hnr. unfold MyCharDev.dev_ioctl.
      destruct (Z.eqb_spec cmd MyCharDev.IOCTL_RESET_BUF);
        [contradiction | exact Hflag]. }
  split; [exact H |].
  unfold MyCharDev.dev_poll. rewrite H. reflexivity.
Qed.

Lemma mychardev_flag_stays_set_witness :
  let st := exec mychardev_c (init mychardev_c) (c_write [] 0 0 false) in
  MyCharDev.data_available st = 1 /\
  MyCharDev.data_available (exec mychardev_c st (c_read 8 8 0 false)) = 1.
Proof.
  cbv zeta. split; [reflexivity |].
  apply (mychardev_flag_stays_set
           (exec mychardev_c (init mychardev_c) (c_write [] 0 0 false))
           (c_read 8 8 0 false)).
  - apply reach_step; [apply reach_init |]. cbn. unfold is_size_t. lia.
  - cbn. unfold is_size_t. lia.
  - exact I.
  - reflexivity.
Defined.

(** ** The control channel *)

(** X8.  In either driver the reset command is the number 0x6B00; every other
    command returns [-EINVAL] and leaves the globals untouched, and the
    argument of a command is never looked at. *)
Theorem ioctl_commands (v : variant) (st : state v) (cmd arg arg' : Z) :
  RESET v = 0x6B00 /\
  (cmd <> RESET v -> unlocked_ioctl (fops v) st cmd arg = (- EINVAL, st)) /\
  unlocked_ioctl (fops v) st cmd arg = unlocked_ioctl (fops v) st cmd arg'.
Proof.
  split; [destruct v; reflexivity |]. split.
  - intros Hcmd. destruct v; cbn [fops unlocked_ioctl MyCharDev.file_ops
                                  Device.file_ops RESET] in *.
    + unfold MyCharDev.dev_ioctl.
      destruct (Z.eqb_spec cmd MyCharDev.IOCTL_RESET_BUF);
        [contradiction | reflexivity].
    + unfold Device.device_ioctl.
      destruct (Z.eqb_spec cmd Device.IOCTL_RESET_BUFFER);
        [contradiction | reflexivity].
  - destruct v; reflexivity.
Qed.

Lemma ioctl_commands_witness :
  unlocked_ioctl (fops second_driver) digits_written 0x6B01 0
  = (- EINVAL, digits_written).
Proof.
  apply (proj1 (proj2 (ioctl_commands second_driver digits_written
                         0x6B01 0 0))).
  vm_compute. discriminate.
Defined.

(** X9.  In either driver and from any state, once the reset command has run a
    read at any non-negative offset returns no byte and changes nothing, and
    poll does not report READABLE. *)
Theorem nothing_to_read_after_reset (v : variant) (st : state v)
    (arg : Z) (room : nat) (amt off : Z) (sg : bool) :
  0 <= off < 2 ^ 63 ->
  let st' := snd (unlocked_ioctl (fops v) st (RESET v) arg) in
  read (fops v) st' room amt off sg = mk_read 0 [] off st' /\
  readable (fst (poll (fops v) st')) = false.
Proof.
  intros Hoff. cbv zeta.
  assert (H : buf_size v (snd (unlocked_ioctl (fops v) st (RESET v) arg)) = 0
              /\ data_available v
                   (snd (unlocked_ioctl (fops v) st (RESET v) arg)) = 0).
  { destruct v; cbn [fops unlocked_ioctl MyCharDev.file_ops Device.file_ops
                     RESET buf_size data_available].
    - unfold MyCharDev.dev_ioctl. rewrite Z.eqb_refl. split; reflexivity.
    - unfold Device.device_ioctl. rewrite Z.eqb_refl. split; reflexivity. }
  destruct H as [Hsz Hflag]. split.
  - apply read_at_end; [exact Hoff | lia].
  - rewrite poll_mask, Hflag. reflexivity.
Qed.

Lemma nothing_to_read_after_reset_witness :
  r_ret (read (fops second_driver)
           (snd (unlocked_ioctl (fops second_driver) digits_written
                   (RESET second_driver) 0)) 1 1 0 false) = 0.
Proof.
  destruct (nothing_to_read_after_reset second_driver digits_written 0
              1 1 0 false) as [H _].
  - lia.
  - rewrite H. reflexivity.
Defined.

(** ** Where the two drivers agree *)

(** X10.  On states with the same store the two drivers answer alike: poll and
    ioctl always; read with the same count, offset and effect on the store
    for every offset, and the same bytes at offset 0; write whenever the
    request is at most the current length or above the capacity.  In
    between (length < request <= 256) [src/mychardev.c] answers [-EINVAL]
    where the second driver does not. *)
Theorem drivers_agree (a : MyCharDev.globals) (b : Device.globals) :
  same_store a b ->
  (fst (MyCharDev.dev_poll a) = fst (Device.device_poll b)) /\
  (forall cmd arg,
     fst (MyCharDev.dev_ioctl a cmd arg) = fst (Device.device_ioctl b cmd arg)
     /\ same_store (snd (MyCharDev.dev_ioctl a cmd arg))
                   (snd (Device.device_ioctl b cmd arg))) /\
  (forall room amt off sg,
     let ra := MyCharDev.dev_read a room amt off sg in
     let rb := Device.device_read b room amt off sg in
     r_ret ra = r_ret rb /\ r_off ra = r_off rb /\
     same_store (r_st ra) (r_st rb) /\
     (off = 0 -> r_user ra = r_user rb)) /\
  (forall src amt off sg,
     MyCharDev.dev_buf_size a <= 256 ->
     amt <= MyCharDev.dev_buf_size a \/ 256 < amt ->
     let wa := MyCharDev.dev_write a src amt off sg in
     let wb := Device.device_write b src amt off sg in
     w_ret wa = w_ret wb /\ w_off wa = w_off wb /\
     same_store (w_st wa) (w_st wb)) /\
  (forall src amt off sg,
     0 <= MyCharDev.dev_buf_size a < amt ->
     amt <= 256 ->
     MyCharDev.dev_write a src amt off sg = mk_write (- EINVAL) off a /\
     w_ret (Device.device_write b src amt off sg) <> - EINVAL).
Proof.
  intros (Hc & Hs & Hf). split; [| split; [| split; [| split]]].
  - unfold MyCharDev.dev_poll, Device.device_poll. rewrite Hf.
    reflexivity.
  - intros cmd arg. unfold MyCharDev.dev_ioctl, Device.device_ioctl.
    change Device.IOCTL_RESET_BUFFER with MyCharDev.IOCTL_RESET_BUF.
    destruct (cmd =? MyCharDev.IOCTL_RESET_BUF); cbn [fst snd].
    + split; [reflexivity |]. unfold same_store. cbn. rewrite Hc.
      repeat split.
    + split; [reflexivity |]. repeat split; assumption.
  - intros room amt off sg. cbv zeta.
    unfold MyCharDev.dev_read, Device.device_read, copy_to_user,
      MyCharDev.SUCCESSFUL, Device.MUTEX_SUCCESS.
    rewrite Hs, Hc.
    handler_cases; cbn [r_ret r_off r_st r_user];
      repeat split; cbn; try assumption; try reflexivity.
    all: intros ->; reflexivity.
  - intros src amt off sg Hsz Hamt. cbv zeta.
    unfold MyCharDev.dev_write, Device.device_write,
      MyCharDev.SUCCESSFUL, Device.BUF_LEN.
    rewrite Hc.
    destruct (Z.gtb_spec amt (MyCharDev.dev_buf_size a)),
             (Z.gtb_spec amt 256); try lia.
    + cbn. repeat split; assumption.
    + handler_cases; cbn [w_ret w_off w_st];
        repeat split; cbn; try assumption; try reflexivity.
  - intros src amt off sg Hamt Hfit. split.
    + apply dev_write_rejected. lia.
    + unfold Device.device_write, Device.BUF_LEN.
      destruct (Z.gtb_spec amt 256); [lia |].
      assert (Hs0 : to_ssize_t amt <> - EINVAL).
      { rewrite to_ssize_t_id by lia. unfold EINVAL. lia. }
      handler_cases; cbn [w_ret]; unfold EINVAL, ERESTARTSYS, EFAULT in *;
        try lia; exact Hs0.
Qed.

Lemma drivers_agree_witness :
  same_store MyCharDev.initial Device.initial /\
  fst (MyCharDev.dev_poll MyCharDev.initial)
  = fst (Device.device_poll Device.initial) /\
  w_ret (Device.device_write Device.initial digits 10 0 false) <> - EINVAL.
Proof.
  assert (Hsame : same_store MyCharDev.initial Device.initial)
    by (repeat split).
  destruct (drivers_agree MyCharDev.initial Device.initial Hsame)
    as (Hpoll & _ & _ & _ & Hdiff).
  split; [exact Hsame |]. split; [exact Hpoll |].
  apply (Hdiff digits 10 0 false).
  - vm_compute. split; [discriminate | reflexivity].
  - vm_compute. discriminate.
Defined.

(** * Loading and unloading the module *)

Lemma to_int_small (x : Z) : - 2 ^ 31 <= x < 2 ^ 31 -> to_int x = x.
Proof.
  intros H. unfold to_int. cbv zeta.
  destruct (Z_lt_le_dec x 0) as [Hneg | Hpos].
  - replace (x mod 2 ^ 32) with (x + 2 ^ 32).
    + destruct (Z.ltb_spec (x + 2 ^ 32) (2 ^ 31)); lia.
    + symmetry. rewrite <- (Z_mod_plus_full x 1 (2 ^ 32)).
      apply Z.mod_small. lia.
  - rewrite Z.mod_small by lia.
    destruct (Z.ltb_spec x (2 ^ 31)); lia.
Qed.

(** The error a failed [class_create] or [device_create] encodes. *)
Lemma ptr_err_of_error_pointer (p : Z) :
  is_size_t p -> IS_ERR p = true ->
  to_int (PTR_ERR p) = p - 2 ^ 64 /\ - MAX_ERRNO <= p - 2 ^ 64 < 0.
Proof.
  assert (Hk : to_size_t (- MAX_ERRNO) = 2 ^ 64 - 4095) by reflexivity.
  unfold is_size_t, IS_ERR, PTR_ERR. rewrite Hk. unfold MAX_ERRNO.
  intros Hp He. apply Z.geb_le in He.
  assert (Hs : to_ssize_t p = p - 2 ^ 64).
  { unfold to_ssize_t. cbv zeta. rewrite Z.mod_small by lia.
    destruct (Z.ltb_spec p (2 ^ 63)); lia. }
  rewrite Hs. split; [apply to_int_small |]; lia.
Qed.

Ltac unwind_cases k :=
  destruct k as [aret adev cret cls dev];
  cbn [alloc_chrdev_region_ret allocated_dev cdev_add_ret class_create_ret
       device_create_ret] in *.

(** X11.  Second driver.  [myfirstchar_init] returns 0 exactly when it got all
    four of device number, cdev, class and device node, and then it has
    given nothing back; otherwise it returns a negative error code and has
    given back all it got, last obtained first. *)
Theorem myfirstchar_init_unwinds (k : kernel_env) (m : Device.module_vars) :
  kernel_env_ok k ->
  let ret := fst (fst (Device.myfirstchar_init k m)) in
  let log := snd (Device.myfirstchar_init k m) in
  (ret = 0 <->
   acquisitions log
   = [chrdev_region; char_device; device_class; device_node]) /\
  (ret = 0 -> releases log = []) /\
  (ret <> 0 -> ret < 0 /\ releases log = rev (acquisitions log)).
Proof.
  intros (Ha & Hc & Hcls & Hdev). unwind_cases k. cbv zeta.
  unfold Device.myfirstchar_init.
  cbn [alloc_chrdev_region_ret allocated_dev cdev_add_ret class_create_ret
       device_create_ret].
  destruct (Z.ltb_spec aret 0) as [Hafail | Haok].
  { assert (E : (aret =? 0) = false) by (apply Z.eqb_neq; lia).
    cbn [fst snd acquisitions releases flat_map acquired released app].
    rewrite E. cbn. repeat split; try lia; try discriminate. }
  assert (aret = 0) by lia. subst aret. cbn [Z.eqb].
  destruct (Z.ltb_spec cret 0) as [Hcfail | Hcok].
  { assert (E : (cret =? 0) = false) by (apply Z.eqb_neq; lia).
    cbn [fst snd acquisitions releases flat_map acquired released app
         Z.eqb].
    rewrite E. cbn. repeat split; try lia; try discriminate. }
  assert (cret = 0) by lia. subst cret.
  destruct (IS_ERR cls) eqn:Ecls.
  { destruct (ptr_err_of_error_pointer cls Hcls Ecls) as [-> Hneg].
    cbn [fst snd acquisitions releases flat_map acquired released app
         Z.eqb].
    rewrite Ecls. cbn. repeat split; try lia; try discriminate. }
  destruct (IS_ERR dev) eqn:Edev.
  { destruct (ptr_err_of_error_pointer dev Hdev Edev) as [-> Hneg].
    cbn [fst snd acquisitions releases flat_map acquired released app
         Z.eqb].
    rewrite Ecls, Edev. cbn. repeat split; try lia; try discriminate. }
  cbn [fst snd acquisitions releases flat_map acquired released app Z.eqb].
  rewrite Ecls, Edev. cbn. repeat split; try lia; try discriminate.
Qed.

Lemma env_class_fails_ok : kernel_env_ok env_class_fails.
Proof.
  unfold kernel_env_ok, is_size_t. cbn. lia.
Defined.

Lemma myfirstchar_init_unwinds_witness :
  let m := Device.mk_module_vars 0 0 0 in
  fst (fst (Device.myfirstchar_init env_class_fails m)) < 0 /\
  releases (snd (Device.myfirstchar_init env_class_fails m))
  = [char_device; chrdev_region].
Proof.
  cbv zeta.
  destruct (myfirstchar_init_unwinds env_class_fails
              (Device.mk_module_vars 0 0 0) env_class_fails_ok)
    as (_ & _ & Hfail).
  destruct Hfail as [Hneg Hrel]; [vm_compute; discriminate |].
  split; [exact Hneg |]. rewrite Hrel. reflexivity.
Defined.

(** X12.  [src/mychardev.c].  [mychardev_init] returns 0 exactly when it got the
    device number and the cdev, whatever [class_create] and [device_create]
    answered; when one of the first two calls fails it returns that negative
    error code and has given back all it got, last obtained first. *)
Theorem mychardev_init_return (k : kernel_env) (m : MyCharDev.module_vars) :
  kernel_env_ok k ->
  let ret := fst (fst (MyCharDev.mychardev_init k m)) in
  let log := snd (MyCharDev.mychardev_init k m) in
  (ret = 0 <-> alloc_chrdev_region_ret k = 0 /\ cdev_add_ret k = 0) /\
  (ret <> 0 -> ret < 0 /\ releases log = rev (acquisitions log)).
Proof.
  intros (Ha & Hc & Hcls & Hdev). unwind_cases k. cbv zeta.
  unfold MyCharDev.mychardev_init, MyCharDev.SUCCESSFUL.
  cbn [alloc_chrdev_region_ret allocated_dev cdev_add_ret class_create_ret
       device_create_ret].
  destruct (Z.ltb_spec aret 0) as [Hafail | Haok].
  { assert (E : (aret =? 0) = false) by (apply Z.eqb_neq; lia).
    cbn [fst snd acquisitions releases flat_map acquired released app].
    rewrite E. cbn. repeat split; try lia; try discriminate. }
  assert (aret = 0) by lia. subst aret. cbn [Z.eqb].
  destruct (Z.ltb_spec cret 0) as [Hcfail | Hcok].
  { assert (E : (cret =? 0) = false) by (apply Z.eqb_neq; lia).
    cbn [fst snd acquisitions releases flat_map acquired released app
         Z.eqb].
    rewrite E. cbn. repeat split; try lia; try discriminate. }
  assert (cret = 0) by lia. subst cret.
  cbn [fst snd]. repeat split; try lia; try discriminate.
Qed.

Lemma mychardev_init_return_witness :
  fst (fst (MyCharDev.mychardev_init env_class_fails
              (MyCharDev.mk_module_vars 0 0 0))) = 0.
Proof.
  apply (proj1 (mychardev_init_return env_class_fails
                  (MyCharDev.mk_module_vars 0 0 0) env_class_fails_ok)).
  split; reflexivity.
Defined.

(** X13.  [src/mychardev.c].  When the device number and the cdev were obtained
    and [class_create] or [device_create] fails, [mychardev_init] goes on:
    it still calls [device_create], with the error pointer as the class if
    that is what it got, and returns 0, although by then it has deleted the
    cdev and unregistered the device number, twice each when both calls
    fail. *)
Theorem mychardev_init_goes_on_after_failure (k : kernel_env)
    (m : MyCharDev.module_vars) :
  alloc_chrdev_region_ret k = 0 ->
  cdev_add_ret k = 0 ->
  IS_ERR (class_create_ret k) = true \/ IS_ERR (device_create_ret k) = true ->
  let ret := fst (fst (MyCharDev.mychardev_init k m)) in
  let log := snd (MyCharDev.mychardev_init k m) in
  ret = 0 /\
  In (k_device_create (class_create_ret k) (allocated_dev k)
        (device_create_ret k)) log /\
  In char_device (releases log) /\
  In chrdev_region (releases log) /\
  releases log
  = (if IS_ERR (class_create_ret k)
     then [char_device; chrdev_region] else [])
    ++ (if IS_ERR (device_create_ret k)
        then [device_class; char_device; chrdev_region] else []).
Proof.
  intros Ha Hc Hfail. unwind_cases k. subst aret cret. cbv zeta.
  unfold MyCharDev.mychardev_init, MyCharDev.SUCCESSFUL.
  cbn [alloc_chrdev_region_ret allocated_dev cdev_add_ret class_create_ret
       device_create_ret Z.eqb Z.ltb Z.compare].
  destruct (IS_ERR cls) eqn:Ecls, (IS_ERR dev) eqn:Edev;
    cbn [fst snd releases flat_map released app In];
    try (destruct Hfail; discriminate);
    repeat split; auto 12.
Qed.

Lemma mychardev_init_goes_on_after_failure_witness :
  releases (snd (MyCharDev.mychardev_init env_class_fails
                   (MyCharDev.mk_module_vars 0 0 0)))
  = [char_device; chrdev_region; device_class; char_device; chrdev_region].
Proof.
  destruct (mychardev_init_goes_on_after_failure env_class_fails
              (MyCharDev.mk_module_vars 0 0 0)) as (_ & _ & _ & _ & Hrel).
  - reflexivity.
  - reflexivity.
  - left. reflexivity.
  - rewrite Hrel. reflexivity.
Defined.

(** X14.  Both drivers.  When all four calls succeed the load returns 0 with
    the same calls in both files, and the unload then gives back the device
    node, the class, the cdev and the device number, the reverse of the
    order they were obtained in, naming the class pointer and the device
    number the load was given. *)
Theorem load_then_unload (k : kernel_env) (m1 : MyCharDev.module_vars)
    (m2 : Device.module_vars) :
  alloc_chrdev_region_ret k = 0 ->
  cdev_add_ret k = 0 ->
  IS_ERR (class_create_ret k) = false ->
  IS_ERR (device_create_ret k) = false ->
  let r1 := MyCharDev.mychardev_init k m1 in
  let r2 := Device.myfirstchar_init k m2 in
  let unload :=
    [k_device_destroy (class_create_ret k) (allocated_dev k);
     k_class_destroy (class_create_ret k);
     k_cdev_del;
     k_unregister_chrdev_region (allocated_dev k) 1] in
  fst (fst r1) = 0 /\ fst (fst r2) = 0 /\
  snd r1 = snd r2 /\
  releases (snd r1) = [] /\
  MyCharDev.mychardev_exit (snd (fst r1)) = unload /\
  Device.myfirstchar_exit (snd (fst r2)) = unload /\
  releases unload = rev (acquisitions (snd r1)).
Proof.
  intros Ha Hc Hcls Hdev. unwind_cases k. subst aret cret. cbv zeta.
  unfold MyCharDev.mychardev_init, Device.myfirstchar_init,
    MyCharDev.SUCCESSFUL.
  cbn [alloc_chrdev_region_ret allocated_dev cdev_add_ret class_create_ret
       device_create_ret Z.eqb Z.ltb Z.compare].
  rewrite Hcls, Hdev.
  cbn [fst snd app releases acquisitions flat_map released acquired Z.eqb
       rev MyCharDev.mychardev_exit Device.myfirstchar_exit
       MyCharDev.myclass MyCharDev.dev_num Device.my_class
       Device.device_num].
  rewrite Hcls, Hdev. cbn. repeat split.
Qed.

Lemma load_then_unload_witness :
  let r := Device.myfirstchar_init env_all_ok (Device.mk_module_vars 0 0 0) in
  fst (fst r) = 0 /\
  releases (Device.myfirstchar_exit (snd (fst r)))
  = [device_node; device_class; char_device; chrdev_region].
Proof.
  destruct (load_then_unload env_all_ok (MyCharDev.mk_module_vars 0 0 0)
              (Device.mk_module_vars 0 0 0))
    as (_ & Hret & _ & _ & _ & Hexit & _); try reflexivity.
  cbv zeta. split; [exact Hret |]. rewrite Hexit. reflexivity.
Defined.
